(** * QMapControl: GeometryPoint

    A shallow embedding of [GeometryPoint.cpp] (namespace [qmapcontrol]) and
    the properties of its sizing, hit-testing, drawing and setter code.

    Conventions of the embedding:
    - [qreal] (a C++ [double]) is a binary64 primitive float; [int] is a [Z],
      with the 32-bit wrap-around written out where the code does arithmetic;
    - a [std::shared_ptr<QPixmap>] is an [option QPixmap] ([None] is
      [nullptr]); none of the member functions below mutates a pixmap in
      place, so no shared store is needed;
    - a non-const member function is a computation in the [Method] monad: it
      threads the object's members and collects the Qt signals it emits, in
      order; [this] is the address the signals carry;
    - the calls made on a [QPainter*] are collected as a list of
      [PainterCall]s, in order. *)

From Stdlib Require Import ZArith Floats.
From stdpp Require Import base option list gmap strings.

Open Scope Z_scope.

(** ** Machine numbers *)

Abbreviation qreal := float.

(** C++ [int]: two's-complement wrap-around of a 32-bit result. *)
Definition int_wrap (z : Z) : Z := (z + 2 ^ 31) mod 2 ^ 32 - 2 ^ 31.

Definition int_sub (a b : Z) : Z := int_wrap (a - b).

(** Conversion [int -> double], exact on the 32-bit range. *)
Definition qreal_of_int (z : Z) : qreal :=
  if z <? 0 then PrimFloat.opp (PrimFloat.of_uint63 (Uint63.of_Z (- z)))
  else PrimFloat.of_uint63 (Uint63.of_Z z).

(** [std::pow(2.0, e)] for an [int] exponent: the power of two, rounded to
    binary64 (zero below the subnormal range, infinity above the largest
    exponent). *)
Definition std_pow2 (e : Z) : qreal := Z.ldexp 1%float e.

(** [std::max(a, b)] is [(a < b) ? b : a]; [std::min(a, b)] is
    [(b < a) ? b : a]. *)
Definition std_max (a b : qreal) : qreal := if PrimFloat.ltb a b then b else a.
Definition std_min (a b : qreal) : qreal := if PrimFloat.ltb b a then b else a.

(** ** Qt value types *)

Record QPointF := mkQPointF { xp : qreal; yp : qreal }.

(** [QSize]: integer width and height. *)
Record QSize := mkQSize { wd : Z; ht : Z }.

(** [QSize::isEmpty]: either dimension is less than or equal to zero. *)
Definition QSize_isEmpty (s : QSize) : bool := (wd s <? 1) || (ht s <? 1).

Record QSizeF := mkQSizeF { width : qreal; height : qreal }.

(** The converting constructor [QSizeF(const QSize&)]. *)
Definition QSizeF_of_QSize (s : QSize) : QSizeF :=
  mkQSizeF (qreal_of_int (wd s)) (qreal_of_int (ht s)).

(** Comparison of both components, for telling computed sizes apart. *)
Definition QSizeF_eqb (a b : QSizeF) : bool :=
  PrimFloat.eqb (width a) (width b) && PrimFloat.eqb (height a) (height b).

Definition setHeight (s : QSizeF) (h : qreal) : QSizeF := mkQSizeF (width s) h.
Definition setWidth (s : QSizeF) (w : qreal) : QSizeF := mkQSizeF w (height s).

(** [QRectF] stores its top-left corner and its extent. *)
Record QRectF := mkQRectF { rect_x : qreal; rect_y : qreal; rect_w : qreal; rect_h : qreal }.

(** [QRectF()]: the null rectangle. *)
Definition QRectF_null : QRectF := mkQRectF 0 0 0 0.

(** [QRectF(const QPointF& topLeft, const QSizeF& size)]. *)
Definition QRectF_of_size (topLeft : QPointF) (size : QSizeF) : QRectF :=
  mkQRectF (xp topLeft) (yp topLeft) (width size) (height size).

(** [QRectF(const QPointF& topLeft, const QPointF& bottomRight)]. *)
Definition QRectF_of_corners (topLeft bottomRight : QPointF) : QRectF :=
  mkQRectF (xp topLeft) (yp topLeft)
           (xp bottomRight - xp topLeft)%float (yp bottomRight - yp topLeft)%float.

Definition topRight (r : QRectF) : QPointF := mkQPointF (rect_x r + rect_w r)%float (rect_y r).

Definition QPointF_add (p q : QPointF) : QPointF :=
  mkQPointF (xp p + xp q)%float (yp p + yp q)%float.

(** A [QPixmap] is known here by its size and by the identity of its pixel
    data ([QPixmap::cacheKey]). *)
Record QPixmap := mkQPixmap { pixmap_size : QSize; cacheKey : Z }.

(** Style objects are opaque to this file. *)
Record QPen := mkQPen { pen_id : Z }.
Record QBrush := mkQBrush { brush_id : Z }.

(** A [QVariant], as far as [draw] looks at it. *)
Record QVariant := mkQVariant { isNull : bool; toString : string }.

(** [QVariant()]. *)
Definition QVariant_invalid : QVariant := mkQVariant true EmptyString.

(** A [QGraphicsItem] is used through its virtual [contains(QPointF)]. *)
Record QGraphicsItem := mkQGraphicsItem { contains : QPointF -> bool }.

(** The two [QRectF] predicates [draw] culls with belong to Qt. *)
Class QRectFOps := {
  QRectF_intersects : QRectF -> QRectF -> bool;
  QRectF_contains : QRectF -> QPointF -> bool
}.

(** ** Point types of [Point.h] *)

Record PointWorldCoord := mkPointWorldCoord { longitude : qreal; latitude : qreal }.
Record PointWorldPx := mkPointWorldPx { world_px_x : qreal; world_px_y : qreal }.
Record PointPx := mkPointPx { px_x : qreal; px_y : qreal }.

Module RawPoint.
Definition ofWorldCoord (p : PointWorldCoord) : QPointF := mkQPointF (longitude p) (latitude p).
Definition ofWorldPx (p : PointWorldPx) : QPointF := mkQPointF (world_px_x p) (world_px_y p).
End RawPoint.

(** [PointWorldPx operator+(PointWorldPx, PointPx)]: component-wise. *)
Definition PointWorldPx_add (p : PointWorldPx) (d : PointPx) : PointWorldPx :=
  mkPointWorldPx (world_px_x p + px_x d)%float (world_px_y p + px_y d)%float.

(** Modelled from the spec: the comparison operators of [PointWorldCoord]
    live in [Point.h], which is not among the sources; the spec describes the
    test in [setCoord] as exact equality on both components, which on
    [double]s is the IEEE comparison. *)
Definition PointWorldCoord_eqb (a b : PointWorldCoord) : bool :=
  PrimFloat.eqb (longitude a) (longitude b) && PrimFloat.eqb (latitude a) (latitude b).

Definition PointWorldCoord_neqb (a b : PointWorldCoord) : bool :=
  negb (PointWorldCoord_eqb a b).

(** ** The projection interface ([Projection.h], reached through
    [projection::get()]) *)

Class Projection := {
  toPointWorldPx : PointWorldCoord -> Z -> PointWorldPx;
  toPointWorldCoord : PointWorldPx -> Z -> PointWorldCoord
}.

(** ** The [Geometry] base class *)

Inductive AlignmentType :=
| TopLeft | Top | TopRight
| Left | Middle | Right
| BottomLeft | Bottom | BottomRight.

Record Geometry := mkGeometry {
  m_zoom_minimum : Z;
  m_zoom_maximum : Z;
  m_pen : QPen;
  m_brush : QBrush;
  m_metadata : gmap string QVariant;
  m_metadata_displayed_key : string;
  m_metadata_displayed_zoom_minimum : Z;
  m_metadata_displayed_alignment_offset_px : qreal
}.

(** Modelled from the spec: [Geometry::isVisible] is defined in
    [Geometry.cpp], which is not among the sources; a geometry is visible at
    zoom [z] iff [zoom_minimum <= z <= zoom_maximum]. *)
Definition Geometry_isVisible (b : Geometry) (controller_zoom : Z) : bool :=
  (m_zoom_minimum b <=? controller_zoom) && (controller_zoom <=? m_zoom_maximum b).

(** Modelled from the spec: [Geometry::getMetadata] is defined in
    [Geometry.cpp]; the metadata is a mapping from key to variant, and a key
    without a value reads as the null variant. *)
Definition Geometry_getMetadata (b : Geometry) (key : string) : QVariant :=
  default QVariant_invalid (m_metadata b !! key).

(** [Geometry::calculateTopLeftPoint] is defined in [Geometry.cpp]; the
    functions below use it as given. *)
Class GeometryAlignment := {
  calculateTopLeftPoint : PointWorldPx -> AlignmentType -> QSizeF -> PointWorldPx
}.

(** ** Signals and painter calls *)

(** The address of a geometry, as carried by [positionChanged(this)] and
    [geometryClicked(this)]. *)
Abbreviation Address := Z.

Inductive Signal :=
| requestRedraw
| positionChanged (geometry : Address)
| geometryClicked (geometry : Address).

Inductive PainterCall :=
| drawPixmap (target : QRectF) (pixmap : QPixmap) (source : QRectF)
| setPen (pen : QPen)
| drawPoint (point : QPointF)
| drawText (position : QPointF) (text : string).

(** ** The members of a [GeometryPoint] *)

Record GeometryPoint := mkGeometryPoint {
  base : Geometry;
  m_point_coord : PointWorldCoord;
  m_pixmap : option QPixmap;
  m_alignment_type : AlignmentType;
  m_base_zoom : Z;
  m_base_size_px : QSizeF;
  m_draw_minimum_px : QSizeF;
  m_draw_maximum_px : QSizeF
}.

Definition isVisible (g : GeometryPoint) (controller_zoom : Z) : bool :=
  Geometry_isVisible (base g) controller_zoom.

Definition getMetadata (g : GeometryPoint) (key : string) : QVariant :=
  Geometry_getMetadata (base g) key.

Definition getPen (g : GeometryPoint) : QPen := m_pen (base g).

(** ** Non-const member functions *)

Module Method.

(** A member function run on the members [g] of [*this] gives its result,
    the members afterwards and the signals emitted meanwhile. *)
Definition t (A : Type) : Type := GeometryPoint -> A * GeometryPoint * list Signal.

Definition ret {A} (a : A) : t A := fun g => (a, g, []).

Definition bind {A B} (m : t A) (k : A -> t B) : t B :=
  fun g =>
    let '(a, g1, out1) := m g in
    let '(b, g2, out2) := k a g1 in
    (b, g2, out1 ++ out2).

Definition get : t GeometryPoint := fun g => (g, g, []).
Definition emit (s : Signal) : t unit := fun g => (tt, g, [s]).

Definition when (c : bool) (m : t unit) : t unit := if c then m else ret tt.

(** Projections of an outcome. *)
Definition result {A} (o : A * GeometryPoint * list Signal) : A := o.1.1.
Definition members {A} (o : A * GeometryPoint * list Signal) : GeometryPoint := o.1.2.
Definition emitted {A} (o : A * GeometryPoint * list Signal) : list Signal := o.2.

End Method.

Declare Scope method_scope.
Delimit Scope method_scope with method.
Notation "x <- m ;; k" := (Method.bind m (fun x => k))
  (at level 100, m at next level, right associativity) : method_scope.
Notation "m ;; k" := (Method.bind m (fun _ => k))
  (at level 100, right associativity) : method_scope.

(** Assignments to single members. [set_base] is all that the mutators of
    the [Geometry] base class do to the members. *)
Definition set_base (v : Geometry) (g : GeometryPoint) : GeometryPoint :=
  mkGeometryPoint v (m_point_coord g) (m_pixmap g) (m_alignment_type g) (m_base_zoom g)
                  (m_base_size_px g) (m_draw_minimum_px g) (m_draw_maximum_px g).
Definition set_point_coord (v : PointWorldCoord) (g : GeometryPoint) : GeometryPoint :=
  mkGeometryPoint (base g) v (m_pixmap g) (m_alignment_type g) (m_base_zoom g)
                  (m_base_size_px g) (m_draw_minimum_px g) (m_draw_maximum_px g).
Definition set_pixmap (v : option QPixmap) (g : GeometryPoint) : GeometryPoint :=
  mkGeometryPoint (base g) (m_point_coord g) v (m_alignment_type g) (m_base_zoom g)
                  (m_base_size_px g) (m_draw_minimum_px g) (m_draw_maximum_px g).
Definition set_alignment_type (v : AlignmentType) (g : GeometryPoint) : GeometryPoint :=
  mkGeometryPoint (base g) (m_point_coord g) (m_pixmap g) v (m_base_zoom g)
                  (m_base_size_px g) (m_draw_minimum_px g) (m_draw_maximum_px g).
Definition set_base_zoom (v : Z) (g : GeometryPoint) : GeometryPoint :=
  mkGeometryPoint (base g) (m_point_coord g) (m_pixmap g) (m_alignment_type g) v
                  (m_base_size_px g) (m_draw_minimum_px g) (m_draw_maximum_px g).
Definition set_base_size_px (v : QSizeF) (g : GeometryPoint) : GeometryPoint :=
  mkGeometryPoint (base g) (m_point_coord g) (m_pixmap g) (m_alignment_type g) (m_base_zoom g)
                  v (m_draw_minimum_px g) (m_draw_maximum_px g).
Definition set_draw_minimum_px (v : QSizeF) (g : GeometryPoint) : GeometryPoint :=
  mkGeometryPoint (base g) (m_point_coord g) (m_pixmap g) (m_alignment_type g) (m_base_zoom g)
                  (m_base_size_px g) v (m_draw_maximum_px g).
Definition set_draw_maximum_px (v : QSizeF) (g : GeometryPoint) : GeometryPoint :=
  mkGeometryPoint (base g) (m_point_coord g) (m_pixmap g) (m_alignment_type g) (m_base_zoom g)
                  (m_base_size_px g) (m_draw_minimum_px g) v.

Definition assign (f : GeometryPoint -> GeometryPoint) : Method.t unit :=
  fun g => (tt, f g, []).

(** The constructors: [base_object] is what the [Geometry] base-class
    constructor built from [GeometryType::GeometryPoint] and the zoom range. *)
Definition GeometryPoint_new (base_object : Geometry) (point_coord : PointWorldCoord)
    (pixmap : QPixmap) : GeometryPoint :=
  {| base := base_object;
     m_point_coord := point_coord;
     m_pixmap := Some pixmap;
     m_alignment_type := Middle;
     m_base_zoom := -1;
     m_base_size_px := QSizeF_of_QSize (pixmap_size pixmap);
     m_draw_minimum_px := mkQSizeF (-1) (-1);
     m_draw_maximum_px := mkQSizeF (-1) (-1) |}.


Definition coord (g : GeometryPoint) : PointWorldCoord := m_point_coord g.

Section MemberFunctions.
Context {projection : Projection} {alignment : GeometryAlignment} {rects : QRectFOps}.
Local Open Scope method_scope.

Definition setCoord (this : Address) (point : PointWorldCoord) : Method.t unit :=
  g <- Method.get ;;
  Method.when (PointWorldCoord_neqb (m_point_coord g) point)
    (assign (set_point_coord point) ;;
     Method.emit requestRedraw ;;
     Method.emit (positionChanged this)).

(** [setPixmap(const std::shared_ptr<QPixmap>&)]. *)
Definition setPixmap (pixmap : option QPixmap) : Method.t unit :=
  assign (set_pixmap pixmap) ;;
  match pixmap with
  | Some p => assign (set_base_size_px (QSizeF_of_QSize (pixmap_size p)))
  | None => Method.ret tt
  end ;;
  Method.emit requestRedraw.

(** [setPixmap(const QPixmap&)]. *)
Definition setPixmap_copy (pixmap : QPixmap) : Method.t unit :=
  assign (set_pixmap (Some pixmap)) ;;
  assign (set_base_size_px (QSizeF_of_QSize (pixmap_size pixmap))) ;;
  Method.emit requestRedraw.

Definition setAlignmentType (alignment_type : AlignmentType) : Method.t unit :=
  assign (set_alignment_type alignment_type).

Definition setBaseZoom (zoom : Z) : Method.t unit :=
  assign (set_base_zoom zoom).

Definition setDrawMinimumPx (size_px : QSizeF) : Method.t unit :=
  assign (set_draw_minimum_px size_px).

Definition setDrawMaximumPx (size_px : QSizeF) : Method.t unit :=
  assign (set_draw_maximum_px size_px).

Definition updatePixmap : Method.t unit := Method.emit requestRedraw.

(** ** Sizing *)

Definition calculateGeometrySizePx (g : GeometryPoint) (controller_zoom : Z) : QSizeF :=
  let return_size_px := mkQSizeF 1 1 in
  match m_pixmap g with
  | Some pixmap =>
    if negb (QSize_isEmpty (pixmap_size pixmap)) then
      let return_size_px := QSizeF_of_QSize (pixmap_size pixmap) in
      if 0 <? m_base_zoom g then
        let zoom_difference := int_sub (m_base_zoom g) controller_zoom in
        let return_size_px :=
          setHeight return_size_px (height (m_base_size_px g) / std_pow2 zoom_difference)%float in
        let return_size_px :=
          setWidth return_size_px (width (m_base_size_px g) / std_pow2 zoom_difference)%float in
        let return_size_px :=
          if PrimFloat.ltb (-1) (height (m_draw_minimum_px g))
          then setHeight return_size_px
                 (std_max (height return_size_px) (height (m_draw_minimum_px g)))
          else return_size_px in
        let return_size_px :=
          if PrimFloat.ltb (-1) (width (m_draw_minimum_px g))
          then setWidth return_size_px
                 (std_max (width return_size_px) (width (m_draw_minimum_px g)))
          else return_size_px in
        let return_size_px :=
          if PrimFloat.ltb (-1) (height (m_draw_maximum_px g))
          then setHeight return_size_px
                 (std_min (height return_size_px) (height (m_draw_maximum_px g)))
          else return_size_px in
        let return_size_px :=
          if PrimFloat.ltb (-1) (width (m_draw_maximum_px g))
          then setWidth return_size_px
                 (std_min (width return_size_px) (width (m_draw_maximum_px g)))
          else return_size_px in
        return_size_px
      else return_size_px
    else return_size_px
  | None => return_size_px
  end.

(** ** Bounding box *)

Definition boundingBox (g : GeometryPoint) (controller_zoom : Z) : QRectF :=
  let point_px := toPointWorldPx (m_point_coord g) controller_zoom in
  let object_size_px := calculateGeometrySizePx g controller_zoom in
  let top_left_point_px := calculateTopLeftPoint point_px (m_alignment_type g) object_size_px in
  let bottom_right_point_px :=
    mkPointWorldPx (world_px_x top_left_point_px + width object_size_px)%float
                   (world_px_y top_left_point_px + height object_size_px)%float in
  QRectF_of_corners
    (RawPoint.ofWorldCoord (toPointWorldCoord top_left_point_px controller_zoom))
    (RawPoint.ofWorldCoord (toPointWorldCoord bottom_right_point_px controller_zoom)).

(** ** Hit test *)

Definition touches (this : Address) (area_px : QGraphicsItem) (controller_zoom : Z)
    : Method.t bool :=
  g <- Method.get ;;
  if isVisible g controller_zoom then
    let point_px := toPointWorldPx (m_point_coord g) controller_zoom in
    if contains area_px (RawPoint.ofWorldPx point_px) then
      Method.emit (geometryClicked this) ;;
      Method.ret true
    else Method.ret false
  else Method.ret false.

(** ** Drawing *)

(** The label drawn after the pixmap or the point, when the zoom has reached
    the display threshold and the displayed key has a value. *)
Definition draw_metadata (g : GeometryPoint) (controller_zoom : Z) (position : QPointF)
    : list PainterCall :=
  if (m_metadata_displayed_zoom_minimum (base g) <=? controller_zoom)
     && negb (isNull (getMetadata g (m_metadata_displayed_key (base g))))
  then [drawText position (toString (getMetadata g (m_metadata_displayed_key (base g))))]
  else [].

Definition draw_point (g : GeometryPoint) (backbuffer_rect_px : QRectF) (controller_zoom : Z)
    : list PainterCall :=
  let point_px := toPointWorldPx (m_point_coord g) controller_zoom in
  if QRectF_contains backbuffer_rect_px (RawPoint.ofWorldPx point_px) then
    let offset := m_metadata_displayed_alignment_offset_px (base g) in
    setPen (getPen g)
    :: drawPoint (RawPoint.ofWorldPx point_px)
    :: draw_metadata g controller_zoom
         (RawPoint.ofWorldPx (PointWorldPx_add point_px (mkPointPx offset (- offset)%float)))
  else [].

Definition draw (g : GeometryPoint) (backbuffer_rect_px : QRectF) (controller_zoom : Z)
    : list PainterCall :=
  if isVisible g controller_zoom then
    match m_pixmap g with
    | Some pixmap =>
      if negb (QSize_isEmpty (pixmap_size pixmap)) then
        let point_px := toPointWorldPx (m_point_coord g) controller_zoom in
        let pixmap_size_px := calculateGeometrySizePx g controller_zoom in
        let pixmap_rect :=
          QRectF_of_size
            (RawPoint.ofWorldPx (calculateTopLeftPoint point_px (m_alignment_type g) pixmap_size_px))
            pixmap_size_px in
        if QRectF_intersects backbuffer_rect_px pixmap_rect then
          let offset := m_metadata_displayed_alignment_offset_px (base g) in
          drawPixmap pixmap_rect pixmap QRectF_null
          :: draw_metadata g controller_zoom
               (QPointF_add (topRight pixmap_rect) (mkQPointF offset (- offset)%float))
        else []
      else draw_point g backbuffer_rect_px controller_zoom
    | None => draw_point g backbuffer_rect_px controller_zoom
    end
  else [].

End MemberFunctions.

(** ** Frames: which members a call may change *)

Inductive Member :=
| M_base | M_point_coord | M_pixmap | M_alignment_type
| M_base_zoom | M_base_size_px | M_draw_minimum_px | M_draw_maximum_px.

Definition member_type (m : Member) : Type :=
  match m with
  | M_base => Geometry
  | M_point_coord => PointWorldCoord
  | M_pixmap => option QPixmap
  | M_alignment_type => AlignmentType
  | M_base_zoom => Z
  | M_base_size_px | M_draw_minimum_px | M_draw_maximum_px => QSizeF
  end.

Definition member (m : Member) (g : GeometryPoint) : member_type m :=
  match m with
  | M_base => base g
  | M_point_coord => m_point_coord g
  | M_pixmap => m_pixmap g
  | M_alignment_type => m_alignment_type g
  | M_base_zoom => m_base_zoom g
  | M_base_size_px => m_base_size_px g
  | M_draw_minimum_px => m_draw_minimum_px g
  | M_draw_maximum_px => m_draw_maximum_px g
  end.

(** [modifies ms g g']: every member outside [ms] has in [g'] the value it
    has in [g]. *)
Definition modifies (ms : list Member) (g g' : GeometryPoint) : Prop :=
  forall m : Member, m ∉ ms -> member m g' = member m g.

(** ** The base size follows the pixmap *)

(** Whenever a pixmap is held, [m_base_size_px] is that pixmap's size. *)
Definition base_size_captured (g : GeometryPoint) : Prop :=
  match m_pixmap g with
  | Some pixmap => m_base_size_px g = QSizeF_of_QSize (pixmap_size pixmap)
  | None => True
  end.

(** The members a [GeometryPoint] can have: built by a constructor, then
    changed by the setters ([touches] and [draw] assign no member). *)
Inductive Reachable : GeometryPoint -> Prop :=
| reach_new b c p : Reachable (GeometryPoint_new b c p)
| reach_base b g : Reachable g -> Reachable (set_base b g)
| reach_setCoord this c g : Reachable g -> Reachable (Method.members (setCoord this c g))
| reach_setPixmap p g : Reachable g -> Reachable (Method.members (setPixmap p g))
| reach_setPixmap_copy p g : Reachable g -> Reachable (Method.members (setPixmap_copy p g))
| reach_setAlignmentType a g :
    Reachable g -> Reachable (Method.members (setAlignmentType a g))
| reach_setBaseZoom z g : Reachable g -> Reachable (Method.members (setBaseZoom z g))
| reach_setDrawMinimumPx s g :
    Reachable g -> Reachable (Method.members (setDrawMinimumPx s g))
| reach_setDrawMaximumPx s g :
    Reachable g -> Reachable (Method.members (setDrawMaximumPx s g)).

(** ** The bounding box, step by step as the specification words it *)

Module BoundingBoxSpec.
Section Steps.
Context {projection : Projection} {alignment : GeometryAlignment}.

(** The anchor world coordinate projected to pixels at the zoom. *)
Definition anchor_px (g : GeometryPoint) (zoom : Z) : PointWorldPx :=
  toPointWorldPx (coord g) zoom.

(** The zoom-scaled size. *)
Definition size_px (g : GeometryPoint) (zoom : Z) : QSizeF :=
  calculateGeometrySizePx g zoom.

(** The alignment offset applied to the anchor gives the top-left pixel. *)
Definition top_left_px (g : GeometryPoint) (zoom : Z) : PointWorldPx :=
  calculateTopLeftPoint (anchor_px g zoom) (m_alignment_type g) (size_px g zoom).

(** Bottom-right = top-left + (width, height). *)
Definition bottom_right_px (g : GeometryPoint) (zoom : Z) : PointWorldPx :=
  PointWorldPx_add (top_left_px g zoom)
                   (mkPointPx (width (size_px g zoom)) (height (size_px g zoom))).

(** Both corners converted back to world coordinates span the rectangle. *)
Definition rectangle (g : GeometryPoint) (zoom : Z) : QRectF :=
  QRectF_of_corners
    (RawPoint.ofWorldCoord (toPointWorldCoord (top_left_px g zoom) zoom))
    (RawPoint.ofWorldCoord (toPointWorldCoord (bottom_right_px g zoom) zoom)).

End Steps.
End BoundingBoxSpec.

(** ** Instances and geometries for the examples *)

Module Fixture.

(** A projection for the examples: a world unit is [2^zoom] pixels. *)
Definition projection : Projection :=
  {| toPointWorldPx c zoom :=
       mkPointWorldPx (longitude c * std_pow2 zoom)%float (latitude c * std_pow2 zoom)%float;
     toPointWorldCoord p zoom :=
       mkPointWorldCoord (world_px_x p / std_pow2 zoom)%float (world_px_y p / std_pow2 zoom)%float |}.

(** An alignment for the examples: the anchor is moved left by the fraction
    [fx] of the width and up by the fraction [fy] of the height. *)
Definition fraction_x (a : AlignmentType) : qreal :=
  match a with
  | TopLeft | Left | BottomLeft => 0
  | Top | Middle | Bottom => 0.5
  | TopRight | Right | BottomRight => 1
  end%float.

Definition fraction_y (a : AlignmentType) : qreal :=
  match a with
  | TopLeft | Top | TopRight => 0
  | Left | Middle | Right => 0.5
  | BottomLeft | Bottom | BottomRight => 1
  end%float.

Definition alignment : GeometryAlignment :=
  {| calculateTopLeftPoint p a s :=
       mkPointWorldPx (world_px_x p - width s * fraction_x a)%float
                      (world_px_y p - height s * fraction_y a)%float |}.

(** Rectangle predicates for the examples, on rectangles of positive
    extent. *)
Definition rects : QRectFOps :=
  {| QRectF_intersects a b :=
       PrimFloat.ltb (rect_x a) (rect_x b + rect_w b)%float
       && PrimFloat.ltb (rect_x b) (rect_x a + rect_w a)%float
       && PrimFloat.ltb (rect_y a) (rect_y b + rect_h b)%float
       && PrimFloat.ltb (rect_y b) (rect_y a + rect_h a)%float;
     QRectF_contains r p :=
       PrimFloat.leb (rect_x r) (xp p) && PrimFloat.leb (xp p) (rect_x r + rect_w r)%float
       && PrimFloat.leb (rect_y r) (yp p) && PrimFloat.leb (yp p) (rect_y r + rect_h r)%float |}.

Definition geometry_base : Geometry :=
  {| m_zoom_minimum := 0;
     m_zoom_maximum := 17;
     m_pen := mkQPen 0;
     m_brush := mkQBrush 0;
     m_metadata := {[ "name" := mkQVariant false "harbour" ]};
     m_metadata_displayed_key := "name";
     m_metadata_displayed_zoom_minimum := 10;
     m_metadata_displayed_alignment_offset_px := 5 |}.

Definition this : Address := 4096.

Definition icon_32 : QPixmap := mkQPixmap (mkQSize 32 32) 1.
Definition icon_100 : QPixmap := mkQPixmap (mkQSize 100 100) 2.

(** A point at (8, 50) showing [icon_32], as constructed. *)
Definition point_32 : GeometryPoint :=
  GeometryPoint_new geometry_base (mkPointWorldCoord 8 50) icon_32.

(** The same after [setBaseZoom(10)]. *)
Definition point_32_zoom_10 : GeometryPoint :=
  Method.members (setBaseZoom 10 point_32).

(** A point showing [icon_100] after [setBaseZoom(10)]. *)
Definition point_100_zoom_10 : GeometryPoint :=
  Method.members (setBaseZoom 10 (GeometryPoint_new geometry_base (mkPointWorldCoord 8 50) icon_100)).

(** The same after [setDrawMinimumPx(QSizeF(20, 20))]. *)
Definition point_100_zoom_10_min_20 : GeometryPoint :=
  Method.members (setDrawMinimumPx (mkQSizeF 20 20) point_100_zoom_10).

(** A clicked area: the pixels with both coordinates in [0, 1024]. *)
Definition area_square : QGraphicsItem :=
  {| contains p :=
       PrimFloat.leb 0 (xp p) && PrimFloat.leb (xp p) 1024
       && PrimFloat.leb 0 (yp p) && PrimFloat.leb (yp p) 1024 |}.

Definition backbuffer : QRectF := mkQRectF 0 0 1024 1024.

End Fixture.

(** ** Further member functions and auxiliary notions *)

(** The test [m_pixmap != nullptr && m_pixmap->size().isEmpty() == false]
    that [draw] and [calculateGeometrySizePx] both start from. *)
Definition has_pixmap (g : GeometryPoint) : bool :=
  match m_pixmap g with
  | Some pixmap => negb (QSize_isEmpty (pixmap_size pixmap))
  | None => false
  end.

(** [QRectF::topLeft] and [QRectF::bottomRight]. *)
Definition topLeft (r : QRectF) : QPointF := mkQPointF (rect_x r) (rect_y r).
Definition bottomRight (r : QRectF) : QPointF :=
  mkQPointF (rect_x r + rect_w r)%float (rect_y r + rect_h r)%float.

(** [PointWorldPx(const QPointF&)]. *)
Definition PointWorldPx_of_raw (p : QPointF) : PointWorldPx := mkPointWorldPx (xp p) (yp p).

(** A [double] that is not a number compares different from itself. *)
Definition is_nan (x : qreal) : bool := negb (PrimFloat.eqb x x).

(** What the four clamping steps of [calculateGeometrySizePx] do to one
    component [x]: the minimum is applied first and the maximum last, each
    only when it is greater than -1. *)
Definition clamp_component (x minimum maximum : qreal) : qreal :=
  let y := if PrimFloat.ltb (-1) minimum then std_max x minimum else x in
  if PrimFloat.ltb (-1) maximum then std_min y maximum else y.

(** The size before clamping, [base_size / 2^(base_zoom - zoom)]. *)
Definition scaled_width (g : GeometryPoint) (controller_zoom : Z) : qreal :=
  (width (m_base_size_px g) / std_pow2 (int_sub (m_base_zoom g) controller_zoom))%float.
Definition scaled_height (g : GeometryPoint) (controller_zoom : Z) : qreal :=
  (height (m_base_size_px g) / std_pow2 (int_sub (m_base_zoom g) controller_zoom))%float.

(** [setPen] and [setBrush], in both overloads. Each calls the setter of
    the [Geometry] base class, which is defined in [Geometry.cpp] and is
    taken here as given (it works on the base sub-object and may emit
    signals), and then the virtual [updatePixmap]. *)
Module StyleSetters.
Section BaseSetters.
Local Open Scope method_scope.

Variable Geometry_setPen_ptr : option QPen -> Geometry -> Geometry * list Signal.
Variable Geometry_setPen : QPen -> Geometry -> Geometry * list Signal.
Variable Geometry_setBrush_ptr : option QBrush -> Geometry -> Geometry * list Signal.
Variable Geometry_setBrush : QBrush -> Geometry -> Geometry * list Signal.

(** The override of [updatePixmap] the object's class provides. *)
Variable updatePixmap_override : Method.t unit.

(** A call of a base-class member function on [*this]. *)
Definition call_base (f : Geometry -> Geometry * list Signal) : Method.t unit :=
  fun g => let '(b, out) := f (base g) in (tt, set_base b g, out).

(** [setPen(const std::shared_ptr<QPen>&)]. *)
Definition setPen_ptr (pen : option QPen) : Method.t unit :=
  call_base (Geometry_setPen_ptr pen) ;;
  updatePixmap_override.

(** [setPen(const QPen&)]. *)
Definition setPen (pen : QPen) : Method.t unit :=
  call_base (Geometry_setPen pen) ;;
  updatePixmap_override.

(** [setBrush(const std::shared_ptr<QBrush>&)]. *)
Definition setBrush_ptr (brush : option QBrush) : Method.t unit :=
  call_base (Geometry_setBrush_ptr brush) ;;
  updatePixmap_override.

(** [setBrush(const QBrush&)]. *)
Definition setBrush (brush : QBrush) : Method.t unit :=
  call_base (Geometry_setBrush brush) ;;
  updatePixmap_override.

End BaseSetters.
End StyleSetters.

Section DrawnRectangle.
Context {projection : Projection} {alignment : GeometryAlignment}.

(** The pixel of the anchor at a zoom. *)
Definition anchor_point_px (g : GeometryPoint) (controller_zoom : Z) : PointWorldPx :=
  toPointWorldPx (m_point_coord g) controller_zoom.

(** The rectangle [draw] computes for the pixmap ([pixmap_rect]). *)
Definition pixmap_rect (g : GeometryPoint) (controller_zoom : Z) : QRectF :=
  let pixmap_size_px := calculateGeometrySizePx g controller_zoom in
  QRectF_of_size
    (RawPoint.ofWorldPx
       (calculateTopLeftPoint (anchor_point_px g controller_zoom) (m_alignment_type g)
          pixmap_size_px))
    pixmap_size_px.

End DrawnRectangle.

(** Whether [draw] writes the label at a zoom, once it has drawn the
    geometry. *)
Definition label_shown (g : GeometryPoint) (controller_zoom : Z) : bool :=
  (m_metadata_displayed_zoom_minimum (base g) <=? controller_zoom)
  && negb (isNull (getMetadata g (m_metadata_displayed_key (base g)))).

(** The setters of a point, as far as the members are concerned. *)
Definition setters_of (this : Address) (c : PointWorldCoord) (p : option QPixmap)
    (a : AlignmentType) (z : Z) (minimum maximum : QSizeF) : list (Method.t unit) :=
  [setCoord this c; setPixmap p; setAlignmentType a; setBaseZoom z;
   setDrawMinimumPx minimum; setDrawMaximumPx maximum].

(** Further instances for the examples. *)
Module Fixture2.

(** A base-class pen setter for the examples: it stores the pen and asks
    for a redraw. *)
Definition Geometry_setPen (pen : QPen) (b : Geometry) : Geometry * list Signal :=
  (mkGeometry (m_zoom_minimum b) (m_zoom_maximum b) pen (m_brush b) (m_metadata b)
              (m_metadata_displayed_key b) (m_metadata_displayed_zoom_minimum b)
              (m_metadata_displayed_alignment_offset_px b),
   [requestRedraw]).

(** A pixmap without extent. *)
Definition icon_empty : QPixmap := mkQPixmap (mkQSize 0 16) 3.

(** A point constructed on the empty pixmap. *)
Definition point_empty : GeometryPoint :=
  GeometryPoint_new Fixture.geometry_base (mkPointWorldCoord 8 50) icon_empty.

(** [Fixture.point_100_zoom_10] with a minimum of (20,20) and a maximum of
    (400,400). *)
Definition point_100_clamped : GeometryPoint :=
  Method.members (setDrawMaximumPx (mkQSizeF 400 400) Fixture.point_100_zoom_10_min_20).


(** A backbuffer far from the anchor of the fixture points. *)
Definition backbuffer_far : QRectF := mkQRectF 100000 100000 10 10.

(** A backbuffer around the anchor of the fixture points at zoom 10. *)
Definition backbuffer_zoom_10 : QRectF := mkQRectF 8000 51000 1024 1024.

(** [draw] with the instances of the examples. *)
Definition draw (g : GeometryPoint) (backbuffer_rect_px : QRectF) (controller_zoom : Z)
    : list PainterCall :=
  draw (projection := Fixture.projection) (alignment := Fixture.alignment)
       (rects := Fixture.rects) g backbuffer_rect_px controller_zoom.

End Fixture2.

(** * Properties *)

(** ** Tactics *)

(** Unfolds the monadic plumbing of a member function. *)
Ltac run_method :=
  cbv [Method.result Method.members Method.emitted Method.bind Method.when Method.ret
       Method.get Method.emit assign
       setCoord setPixmap setPixmap_copy setAlignmentType setBaseZoom
       setDrawMinimumPx setDrawMaximumPx updatePixmap touches];
  cbn [fst snd app].

(** Proves a frame: each member is either untouched or listed. *)
Ltac frame :=
  let m := fresh "m" in
  let Hm := fresh "Hm" in
  intros m Hm; destruct m; try reflexivity; exfalso; apply Hm; set_solver.

(** Two sizes that compare different are different. *)
Lemma QSizeF_eqb_neq (a b : QSizeF) :
  QSizeF_eqb b b = true -> QSizeF_eqb a b = false -> a <> b.
Proof. intros Hrefl Hne ->. congruence. Qed.

(** ** The invariant of the base size *)

Lemma base_size_captured_new b c p : base_size_captured (GeometryPoint_new b c p).
Proof. reflexivity. Qed.

Lemma base_size_captured_setPixmap p g : base_size_captured (Method.members (setPixmap p g)).
Proof. destruct p; reflexivity. Qed.

Lemma Reachable_base_size_captured g : Reachable g -> base_size_captured g.
Proof.
  induction 1 as [b c p | b g _ IH | this c g _ IH | p g _ _ | p g _ _
                 | a g _ IH | z g _ IH | s g _ IH | s g _ IH].
  - apply base_size_captured_new.
  - exact IH.
  - run_method. destruct (PointWorldCoord_neqb _ _); exact IH.
  - apply base_size_captured_setPixmap.
  - reflexivity.
  - exact IH.
  - exact IH.
  - exact IH.
  - exact IH.
Qed.

(** ** Sizing lemmas *)

(** With a base zoom that is not positive the scaling branch is skipped. *)
Lemma calculateGeometrySizePx_unscaled g pixmap controller_zoom :
  m_pixmap g = Some pixmap ->
  QSize_isEmpty (pixmap_size pixmap) = false ->
  m_base_zoom g <= 0 ->
  calculateGeometrySizePx g controller_zoom = QSizeF_of_QSize (pixmap_size pixmap).
Proof.
  intros Hpix Hne Hz. unfold calculateGeometrySizePx. rewrite Hpix, Hne. cbn [negb].
  destruct (Z.ltb_spec 0 (m_base_zoom g)) as [Hlt | _]; [lia | reflexivity].
Qed.

(** With a positive base zoom and both clamps at the (-1, -1) sentinel the
    size is the base size divided by [2^(base_zoom - zoom)]. *)
Lemma calculateGeometrySizePx_scaled g pixmap controller_zoom :
  m_pixmap g = Some pixmap ->
  QSize_isEmpty (pixmap_size pixmap) = false ->
  0 < m_base_zoom g ->
  m_draw_minimum_px g = mkQSizeF (-1) (-1) ->
  m_draw_maximum_px g = mkQSizeF (-1) (-1) ->
  calculateGeometrySizePx g controller_zoom =
    mkQSizeF (width (m_base_size_px g) / std_pow2 (int_sub (m_base_zoom g) controller_zoom))
             (height (m_base_size_px g) / std_pow2 (int_sub (m_base_zoom g) controller_zoom)).
Proof.
  intros Hpix Hne Hz Hmin Hmax. unfold calculateGeometrySizePx.
  rewrite Hpix, Hne, Hmin, Hmax. cbn [negb].
  destruct (Z.ltb_spec 0 (m_base_zoom g)) as [_ | Hle]; [reflexivity | lia].
Qed.

(** Without a pixmap the size is that of a point. *)
Lemma calculateGeometrySizePx_no_pixmap g controller_zoom :
  m_pixmap g = None -> calculateGeometrySizePx g controller_zoom = mkQSizeF 1 1.
Proof. intros Hpix. unfold calculateGeometrySizePx. rewrite Hpix. reflexivity. Qed.

(** ** Sizing at a base zoom of 10 *)

(** C1, as stated, fails: on the 32x32 pixmap with base zoom 10 the sizes at
    zoom 10, 11 and 9 are not (32,32), (16,16) and (64,64). *)
Lemma calculateGeometrySizePx_base_zoom_10_stated_sizes_fail :
  ~ (calculateGeometrySizePx Fixture.point_32_zoom_10 10 = mkQSizeF 32 32
     /\ calculateGeometrySizePx Fixture.point_32_zoom_10 11 = mkQSizeF 16 16
     /\ calculateGeometrySizePx Fixture.point_32_zoom_10 9 = mkQSizeF 64 64).
Proof.
  intros (_ & H11 & _). revert H11. apply QSizeF_eqb_neq; reflexivity.
Qed.

(** C1 (amended): for a GeometryPoint with a non-empty image, base zoom 10,
    base size (32,32) and no clamp configured, calculateGeometrySizePx
    returns base_size / 2^(base_zoom - zoom) at every zoom: (32,32) at zoom
    10, (64,64) at zoom 11 and (16,16) at zoom 9. *)
Theorem calculateGeometrySizePx_base_zoom_10 g pixmap :
  m_pixmap g = Some pixmap ->
  QSize_isEmpty (pixmap_size pixmap) = false ->
  m_base_zoom g = 10 ->
  m_base_size_px g = mkQSizeF 32 32 ->
  m_draw_minimum_px g = mkQSizeF (-1) (-1) ->
  m_draw_maximum_px g = mkQSizeF (-1) (-1) ->
  (forall zoom,
     calculateGeometrySizePx g zoom =
       mkQSizeF (32 / std_pow2 (int_sub 10 zoom)) (32 / std_pow2 (int_sub 10 zoom)))
  /\ calculateGeometrySizePx g 10 = mkQSizeF 32 32
  /\ calculateGeometrySizePx g 11 = mkQSizeF 64 64
  /\ calculateGeometrySizePx g 9 = mkQSizeF 16 16.
Proof.
  intros Hpix Hne Hz Hbase Hmin Hmax.
  assert (Hall : forall zoom,
             calculateGeometrySizePx g zoom =
               mkQSizeF (32 / std_pow2 (int_sub 10 zoom)) (32 / std_pow2 (int_sub 10 zoom))).
  { intros zoom.
    rewrite (calculateGeometrySizePx_scaled g pixmap zoom Hpix Hne) by (assumption || lia).
    rewrite Hz, Hbase. reflexivity. }
  split; [exact Hall |].
  rewrite !Hall. repeat split; reflexivity.
Qed.

Lemma calculateGeometrySizePx_base_zoom_10_witness :
  m_pixmap Fixture.point_32_zoom_10 = Some Fixture.icon_32
  /\ m_base_zoom Fixture.point_32_zoom_10 = 10
  /\ m_base_size_px Fixture.point_32_zoom_10 = mkQSizeF 32 32
  /\ calculateGeometrySizePx Fixture.point_32_zoom_10 11 = mkQSizeF 64 64
  /\ calculateGeometrySizePx Fixture.point_32_zoom_10 9 = mkQSizeF 16 16.
Proof.
  do 3 (split; [reflexivity |]).
  exact (proj2 (proj2 (calculateGeometrySizePx_base_zoom_10
                         Fixture.point_32_zoom_10 Fixture.icon_32
                         eq_refl eq_refl eq_refl eq_refl eq_refl eq_refl))).
Defined.

(** ** The minimum clamp *)

(** C2, as stated, fails: with base size (100,100), base zoom 10 and
    minimum (20,20) the size at zoom 15 is not (20,20). *)
Lemma calculateGeometrySizePx_minimum_at_zoom_15_fails :
  ~ (calculateGeometrySizePx Fixture.point_100_zoom_10_min_20 15 = mkQSizeF 20 20).
Proof.
  apply QSizeF_eqb_neq; reflexivity.
Qed.

(** C2 (amended): for a GeometryPoint with a non-empty image, base size
    (100,100), base zoom 10 and minimum draw size (20,20) (no maximum),
    calculateGeometrySizePx at zoom 15 yields 100 / 2^(10-15) = 3200 per
    component, which the minimum leaves as it is: (3200,3200). The unclamped
    value 100/32 = 3.125 arises at zoom 5, where the minimum clamp raises it
    to the result (20,20). *)
Theorem calculateGeometrySizePx_minimum_clamp g pixmap :
  m_pixmap g = Some pixmap ->
  QSize_isEmpty (pixmap_size pixmap) = false ->
  m_base_zoom g = 10 ->
  m_base_size_px g = mkQSizeF 100 100 ->
  m_draw_minimum_px g = mkQSizeF 20 20 ->
  m_draw_maximum_px g = mkQSizeF (-1) (-1) ->
  calculateGeometrySizePx g 15 = mkQSizeF 3200 3200
  /\ calculateGeometrySizePx (set_draw_minimum_px (mkQSizeF (-1) (-1)) g) 15 = mkQSizeF 3200 3200
  /\ calculateGeometrySizePx (set_draw_minimum_px (mkQSizeF (-1) (-1)) g) 5 = mkQSizeF 3.125 3.125
  /\ calculateGeometrySizePx g 5 = mkQSizeF 20 20.
Proof.
  intros Hpix Hne Hz Hbase Hmin Hmax.
  unfold calculateGeometrySizePx; cbn [set_draw_minimum_px m_pixmap m_base_zoom m_base_size_px
                                       m_draw_minimum_px m_draw_maximum_px].
  rewrite Hpix, Hne, Hz, Hbase, Hmin, Hmax.
  repeat split; reflexivity.
Qed.

Lemma calculateGeometrySizePx_minimum_clamp_witness :
  m_base_zoom Fixture.point_100_zoom_10_min_20 = 10
  /\ m_base_size_px Fixture.point_100_zoom_10_min_20 = mkQSizeF 100 100
  /\ m_draw_minimum_px Fixture.point_100_zoom_10_min_20 = mkQSizeF 20 20
  /\ calculateGeometrySizePx Fixture.point_100_zoom_10_min_20 15 = mkQSizeF 3200 3200
  /\ calculateGeometrySizePx Fixture.point_100_zoom_10_min_20 5 = mkQSizeF 20 20.
Proof.
  do 3 (split; [reflexivity |]).
  destruct (calculateGeometrySizePx_minimum_clamp Fixture.point_100_zoom_10_min_20
              Fixture.icon_100 eq_refl eq_refl eq_refl eq_refl eq_refl eq_refl)
    as (H15 & _ & _ & H5).
  exact (conj H15 H5).
Defined.

(** ** An unset base zoom *)

(** C6: when base_zoom is unset (the -1 sentinel), calculateGeometrySizePx
    on a GeometryPoint with a non-empty image returns the image's size at
    every zoom, whatever minimum and maximum draw sizes are configured; on
    members reached from a constructor this is the base size. *)
Theorem calculateGeometrySizePx_base_zoom_unset g pixmap :
  m_pixmap g = Some pixmap ->
  QSize_isEmpty (pixmap_size pixmap) = false ->
  m_base_zoom g = -1 ->
  forall zoom,
    calculateGeometrySizePx g zoom = QSizeF_of_QSize (pixmap_size pixmap)
    /\ (forall minimum maximum,
          calculateGeometrySizePx (set_draw_maximum_px maximum (set_draw_minimum_px minimum g)) zoom
          = calculateGeometrySizePx g zoom)
    /\ (Reachable g -> calculateGeometrySizePx g zoom = m_base_size_px g).
Proof.
  intros Hpix Hne Hz zoom.
  assert (Hsize : calculateGeometrySizePx g zoom = QSizeF_of_QSize (pixmap_size pixmap)).
  { apply calculateGeometrySizePx_unscaled; [assumption | assumption | lia]. }
  split; [exact Hsize |]. split.
  - intros minimum maximum. rewrite Hsize.
    apply calculateGeometrySizePx_unscaled; cbn; [assumption | assumption | lia].
  - intros Hreach. apply Reachable_base_size_captured in Hreach.
    unfold base_size_captured in Hreach. rewrite Hpix in Hreach. congruence.
Qed.

Lemma calculateGeometrySizePx_base_zoom_unset_witness :
  m_base_zoom Fixture.point_32 = -1
  /\ m_base_size_px Fixture.point_32 = mkQSizeF 32 32
  /\ calculateGeometrySizePx Fixture.point_32 0 = mkQSizeF 32 32
  /\ calculateGeometrySizePx Fixture.point_32 20 = mkQSizeF 32 32
  /\ calculateGeometrySizePx Fixture.point_32 20 = m_base_size_px Fixture.point_32.
Proof.
  do 2 (split; [reflexivity |]).
  pose proof (calculateGeometrySizePx_base_zoom_unset Fixture.point_32 Fixture.icon_32
                eq_refl eq_refl eq_refl) as Hsize.
  split; [exact (proj1 (Hsize 0)) |].
  split; [exact (proj1 (Hsize 20)) |].
  exact (proj2 (proj2 (Hsize 20)) (reach_new _ _ _)).
Defined.

(** ** A base zoom that is not positive *)

(** C9: calculateGeometrySizePx takes every base_zoom <= 0 as unset, the
    scaling branch being entered only for base_zoom > 0: after
    setBaseZoom(z) with z <= 0 (z = 0 among them), a GeometryPoint with a
    non-empty image is sized at its image's size (its base size, on members
    reached from a constructor) at every zoom, and no minimum or maximum
    draw size changes that; after setBaseZoom(z) with z > 0 the size is
    scaled. *)
Theorem setBaseZoom_not_positive_is_unset g pixmap z :
  m_pixmap g = Some pixmap ->
  QSize_isEmpty (pixmap_size pixmap) = false ->
  forall zoom,
    let g' := Method.members (setBaseZoom z g) in
    (z <= 0 ->
       calculateGeometrySizePx g' zoom = QSizeF_of_QSize (pixmap_size pixmap)
       /\ (forall minimum maximum,
             calculateGeometrySizePx
               (set_draw_maximum_px maximum (set_draw_minimum_px minimum g')) zoom
             = calculateGeometrySizePx g' zoom)
       /\ (Reachable g -> calculateGeometrySizePx g' zoom = m_base_size_px g'))
    /\ (0 < z ->
          m_draw_minimum_px g = mkQSizeF (-1) (-1) ->
          m_draw_maximum_px g = mkQSizeF (-1) (-1) ->
          calculateGeometrySizePx g' zoom =
            mkQSizeF (width (m_base_size_px g) / std_pow2 (int_sub z zoom))
                     (height (m_base_size_px g) / std_pow2 (int_sub z zoom))).
Proof.
  intros Hpix Hne zoom g'. split.
  - intros Hz.
    assert (Hsize : calculateGeometrySizePx g' zoom = QSizeF_of_QSize (pixmap_size pixmap)).
    { apply calculateGeometrySizePx_unscaled; cbn; [assumption | assumption | lia]. }
    split; [exact Hsize |]. split.
    + intros minimum maximum. rewrite Hsize.
      apply calculateGeometrySizePx_unscaled; cbn; [assumption | assumption | lia].
    + intros Hreach. rewrite Hsize.
      apply Reachable_base_size_captured in Hreach.
      unfold base_size_captured in Hreach. rewrite Hpix in Hreach.
      subst g'. cbn. congruence.
  - intros Hz Hmin Hmax.
    apply (calculateGeometrySizePx_scaled g' pixmap zoom); cbn; assumption.
Qed.

Lemma setBaseZoom_not_positive_is_unset_witness :
  m_draw_minimum_px Fixture.point_100_zoom_10_min_20 = mkQSizeF 20 20
  /\ calculateGeometrySizePx
       (Method.members (setBaseZoom 0 Fixture.point_100_zoom_10_min_20)) 15
     = mkQSizeF 100 100
  /\ calculateGeometrySizePx (Method.members (setBaseZoom 1 Fixture.point_32)) 3
     = mkQSizeF 128 128.
Proof.
  split; [reflexivity |].
  split.
  - exact (proj1 (proj1 (setBaseZoom_not_positive_is_unset Fixture.point_100_zoom_10_min_20
                           Fixture.icon_100 0 eq_refl eq_refl 15)
                        ltac:(lia))).
  - exact (proj2 (setBaseZoom_not_positive_is_unset Fixture.point_32 Fixture.icon_32 1
                    eq_refl eq_refl 3)
                 ltac:(lia) eq_refl eq_refl).
Defined.

(** ** Setters *)

(** C4: setCoord with a value equal to the current coordinate (equal on
    both components) leaves every member as it is and emits nothing; with a
    different value it stores the value, changes no other member and emits
    exactly a redraw request followed by a position-changed event carrying
    this geometry. A second call with the same (self-equal) value emits
    nothing. *)
Theorem setCoord_spec (this : Address) (point : PointWorldCoord) (g : GeometryPoint) :
  let o := setCoord this point g in
  (PointWorldCoord_eqb (coord g) point = true ->
     Method.members o = g /\ Method.emitted o = [])
  /\ (PointWorldCoord_eqb (coord g) point = false ->
        coord (Method.members o) = point
        /\ modifies [M_point_coord] g (Method.members o)
        /\ Method.emitted o = [requestRedraw; positionChanged this])
  /\ (PointWorldCoord_eqb point point = true ->
        Method.emitted (setCoord this point (Method.members o)) = []).
Proof.
  cbv zeta. unfold coord. split; [| split].
  - intros Heq. run_method. unfold PointWorldCoord_neqb. rewrite Heq. split; reflexivity.
  - intros Hne. run_method. unfold PointWorldCoord_neqb. rewrite Hne. cbn.
    split; [reflexivity |]. split; [frame | reflexivity].
  - intros Hself. run_method. unfold PointWorldCoord_neqb.
    destruct (PointWorldCoord_eqb (m_point_coord g) point) eqn:Heq; cbn.
    + rewrite Heq. reflexivity.
    + rewrite Hself. reflexivity.
Qed.

Lemma setCoord_spec_witness :
  PointWorldCoord_eqb (coord Fixture.point_32) (mkPointWorldCoord 8 50) = true
  /\ PointWorldCoord_eqb (coord Fixture.point_32) (mkPointWorldCoord 9 50) = false
  /\ Method.emitted (setCoord Fixture.this (mkPointWorldCoord 8 50) Fixture.point_32) = []
  /\ Method.emitted (setCoord Fixture.this (mkPointWorldCoord 9 50) Fixture.point_32)
     = [requestRedraw; positionChanged Fixture.this].
Proof.
  do 2 (split; [reflexivity |]).
  exact (conj
           (proj2 (proj1 (setCoord_spec Fixture.this (mkPointWorldCoord 8 50) Fixture.point_32)
                         eq_refl))
           (proj2 (proj2 (proj1 (proj2 (setCoord_spec Fixture.this (mkPointWorldCoord 9 50)
                                                      Fixture.point_32))
                                eq_refl)))).
Defined.

(** C10: setAlignmentType, setBaseZoom, setDrawMinimumPx and
    setDrawMaximumPx each emit no signal, store their argument in their own
    member and leave every other member (coordinate, pixmap, base size, the
    base-class members, the other three) as it is. *)
Theorem plain_setters_spec (g : GeometryPoint) :
  (forall alignment_type,
     let o := setAlignmentType alignment_type g in
     Method.emitted o = []
     /\ m_alignment_type (Method.members o) = alignment_type
     /\ modifies [M_alignment_type] g (Method.members o))
  /\ (forall zoom,
        let o := setBaseZoom zoom g in
        Method.emitted o = []
        /\ m_base_zoom (Method.members o) = zoom
        /\ modifies [M_base_zoom] g (Method.members o))
  /\ (forall size_px,
        let o := setDrawMinimumPx size_px g in
        Method.emitted o = []
        /\ m_draw_minimum_px (Method.members o) = size_px
        /\ modifies [M_draw_minimum_px] g (Method.members o))
  /\ (forall size_px,
        let o := setDrawMaximumPx size_px g in
        Method.emitted o = []
        /\ m_draw_maximum_px (Method.members o) = size_px
        /\ modifies [M_draw_maximum_px] g (Method.members o)).
Proof.
  repeat split; solve [reflexivity | frame].
Qed.

Section WithCollaborators.
Context {projection : Projection} {alignment : GeometryAlignment} {rects : QRectFOps}.

(** ** Hit test *)

(** C3: touches returns false, emitting nothing, when the geometry is not
    visible at the zoom; when it is visible, it returns true if and only if
    the area contains the projected anchor pixel, emits exactly one
    geometryClicked (carrying this geometry) on a hit and nothing on a miss.
    It assigns no member, and its answer depends on the anchor and the
    visibility range only, not on the pixmap, its size or its alignment. *)
Theorem touches_spec (this : Address) (area_px : QGraphicsItem) (controller_zoom : Z)
    (g : GeometryPoint) :
  let anchor_px := RawPoint.ofWorldPx (toPointWorldPx (coord g) controller_zoom) in
  let o := touches this area_px controller_zoom g in
  Method.members o = g
  /\ (isVisible g controller_zoom = false ->
        Method.result o = false /\ Method.emitted o = [])
  /\ (isVisible g controller_zoom = true ->
        (Method.result o = true <-> contains area_px anchor_px = true)
        /\ (Method.result o = true -> Method.emitted o = [geometryClicked this])
        /\ (Method.result o = false -> Method.emitted o = []))
  /\ (forall g' : GeometryPoint,
        coord g' = coord g -> base g' = base g ->
        Method.result (touches this area_px controller_zoom g') = Method.result o).
Proof.
  cbv zeta. unfold coord. run_method.
  split; [| split; [| split]].
  - destruct (isVisible g controller_zoom); [| reflexivity].
    destruct (contains area_px _); reflexivity.
  - intros Hvis. rewrite Hvis. split; reflexivity.
  - intros Hvis. rewrite Hvis.
    destruct (contains area_px _); cbn.
    + split; [tauto |]. split; [reflexivity | discriminate].
    + split; [split; discriminate |]. split; [discriminate | reflexivity].
  - intros g' Hcoord Hbase. unfold isVisible. rewrite Hcoord, Hbase.
    destruct (Geometry_isVisible (base g) controller_zoom); [| reflexivity].
    destruct (contains area_px _); reflexivity.
Qed.

(** ** Drawing *)

(** C5: when isVisible(zoom) is false, draw makes no call on the painter
    (no drawPixmap, drawPoint, setPen or drawText), whatever the pixmap, pen
    and metadata are. *)
Theorem draw_not_visible (g : GeometryPoint) (backbuffer_rect_px : QRectF) (controller_zoom : Z) :
  isVisible g controller_zoom = false ->
  draw g backbuffer_rect_px controller_zoom = [].
Proof.
  intros Hvis. unfold draw. rewrite Hvis. reflexivity.
Qed.

(** ** Bounding box *)

(** C7: boundingBox(zoom) is the rectangle obtained by projecting the
    anchor to pixels at the zoom, computing the zoom-scaled size, applying
    the alignment offset to get the top-left pixel, taking bottom-right =
    top-left + (width, height) and converting both corners back to world
    coordinates through the projection. *)
Theorem boundingBox_spec (g : GeometryPoint) (controller_zoom : Z) :
  boundingBox g controller_zoom = BoundingBoxSpec.rectangle g controller_zoom
  /\ rect_x (boundingBox g controller_zoom)
     = longitude (toPointWorldCoord (BoundingBoxSpec.top_left_px g controller_zoom) controller_zoom)
  /\ rect_y (boundingBox g controller_zoom)
     = latitude (toPointWorldCoord (BoundingBoxSpec.top_left_px g controller_zoom) controller_zoom)
  /\ rect_w (boundingBox g controller_zoom)
     = (longitude (toPointWorldCoord (BoundingBoxSpec.bottom_right_px g controller_zoom) controller_zoom)
        - longitude (toPointWorldCoord (BoundingBoxSpec.top_left_px g controller_zoom) controller_zoom))%float
  /\ rect_h (boundingBox g controller_zoom)
     = (latitude (toPointWorldCoord (BoundingBoxSpec.bottom_right_px g controller_zoom) controller_zoom)
        - latitude (toPointWorldCoord (BoundingBoxSpec.top_left_px g controller_zoom) controller_zoom))%float.
Proof.
  repeat split.
Qed.

(** ** Replacing the pixmap *)

(** C8: setPixmap stores the supplied pixmap and emits exactly one redraw
    request; a non-null pixmap also sets the base size to its size, and no
    member other than the pixmap and the base size changes. A null pixmap
    is stored like any other, leaves the base size as it was, and draw then
    draws the geometry as a point: the pen and the point (then the label),
    when it is visible and its anchor pixel lies in the backbuffer
    rectangle, and never a pixmap. The overload taking a QPixmap by
    reference does what the pointer overload does on a non-null pointer. *)
Theorem setPixmap_spec (pixmap : option QPixmap) (g : GeometryPoint) :
  let o := setPixmap pixmap g in
  Method.emitted o = [requestRedraw]
  /\ m_pixmap (Method.members o) = pixmap
  /\ modifies [M_pixmap; M_base_size_px] g (Method.members o)
  /\ (forall p, pixmap = Some p ->
        m_base_size_px (Method.members o) = QSizeF_of_QSize (pixmap_size p)
        /\ setPixmap_copy p g = o)
  /\ (pixmap = None ->
        m_base_size_px (Method.members o) = m_base_size_px g
        /\ forall backbuffer_rect_px controller_zoom,
             let point_px := toPointWorldPx (coord g) controller_zoom in
             let offset := m_metadata_displayed_alignment_offset_px (base g) in
             draw (Method.members o) backbuffer_rect_px controller_zoom
             = if isVisible g controller_zoom
                  && QRectF_contains backbuffer_rect_px (RawPoint.ofWorldPx point_px)
               then setPen (getPen g)
                    :: drawPoint (RawPoint.ofWorldPx point_px)
                    :: draw_metadata g controller_zoom
                         (RawPoint.ofWorldPx
                            (PointWorldPx_add point_px (mkPointPx offset (- offset)%float)))
               else []).
Proof.
  cbv zeta. split; [| split; [| split; [| split]]].
  - destruct pixmap; reflexivity.
  - destruct pixmap; reflexivity.
  - destruct pixmap; frame.
  - intros p ->. split; reflexivity.
  - intros ->. split; [reflexivity |].
    intros backbuffer_rect_px controller_zoom.
    unfold draw, draw_point, coord. run_method. cbn.
    change (isVisible (set_pixmap None g) controller_zoom) with (isVisible g controller_zoom).
    destruct (isVisible g controller_zoom); [| reflexivity].
    cbn. destruct (QRectF_contains _ _); reflexivity.
Qed.

End WithCollaborators.

Lemma touches_spec_witness :
  isVisible Fixture.point_32 18 = false
  /\ isVisible Fixture.point_32 3 = true
  /\ Method.result (touches (projection := Fixture.projection)
                            Fixture.this Fixture.area_square 18 Fixture.point_32) = false
  /\ Method.emitted (touches (projection := Fixture.projection)
                             Fixture.this Fixture.area_square 3 Fixture.point_32)
     = [geometryClicked Fixture.this].
Proof.
  do 2 (split; [reflexivity |]).
  split.
  - exact (proj1 (proj1 (proj2 (touches_spec (projection := Fixture.projection)
                                   Fixture.this Fixture.area_square 18 Fixture.point_32))
                        eq_refl)).
  - exact (proj1 (proj2 (proj1 (proj2 (proj2 (touches_spec (projection := Fixture.projection)
                                   Fixture.this Fixture.area_square 3 Fixture.point_32)))
                               eq_refl))
                 eq_refl).
Defined.

Lemma draw_not_visible_witness :
  isVisible Fixture.point_32 18 = false
  /\ draw (projection := Fixture.projection) (alignment := Fixture.alignment)
          (rects := Fixture.rects) Fixture.point_32 Fixture.backbuffer 18 = [].
Proof.
  split; [reflexivity |].
  apply (draw_not_visible (projection := Fixture.projection) (alignment := Fixture.alignment)
           (rects := Fixture.rects) Fixture.point_32 Fixture.backbuffer 18).
  reflexivity.
Defined.

Lemma setPixmap_spec_witness :
  m_base_size_px (Method.members (setPixmap (Some Fixture.icon_100) Fixture.point_32))
  = mkQSizeF 100 100
  /\ draw (projection := Fixture.projection) (alignment := Fixture.alignment)
          (rects := Fixture.rects)
          (Method.members (setPixmap None Fixture.point_32)) Fixture.backbuffer 3
     = [setPen (mkQPen 0); drawPoint (mkQPointF 64 400)].
Proof.
  split.
  - exact (proj1 (proj1 (proj2 (proj2 (proj2 (setPixmap_spec
             (projection := Fixture.projection) (alignment := Fixture.alignment)
             (rects := Fixture.rects) (Some Fixture.icon_100) Fixture.point_32))))
           Fixture.icon_100 eq_refl)).
  - exact (proj2 (proj2 (proj2 (proj2 (proj2 (setPixmap_spec
             (projection := Fixture.projection) (alignment := Fixture.alignment)
             (rects := Fixture.rects) None Fixture.point_32))))
           eq_refl) Fixture.backbuffer 3).
Defined.

(** * Further properties of the code *)

(** ** Comparisons of doubles *)

Lemma SFcompare_refl f : f <> S754_nan -> SFcompare f f = Some Eq.
Proof.
  destruct f as [s | s | | s m e]; try destruct s; cbn; try reflexivity; try congruence;
    intros _; rewrite Z.compare_refl, Pos.compare_cont_refl; reflexivity.
Qed.

Lemma SFltb_irrefl f : SFltb f f = false.
Proof.
  unfold SFltb. destruct f as [s | s | | s m e]; try reflexivity;
    rewrite SFcompare_refl by discriminate; reflexivity.
Qed.

Lemma ltb_irrefl (x : qreal) : PrimFloat.ltb x x = false.
Proof. rewrite FloatAxioms.ltb_spec. apply SFltb_irrefl. Qed.

Lemma is_nan_Prim2SF (x : qreal) : is_nan x = true -> Prim2SF x = S754_nan.
Proof.
  unfold is_nan. rewrite FloatAxioms.eqb_spec. unfold SFeqb. intros Hx.
  destruct (Prim2SF x) as [s | s | | s m e] eqn:E; try reflexivity;
    rewrite SFcompare_refl in Hx by discriminate; discriminate.
Qed.

(** A double that is not a number is neither below nor above anything. *)
Lemma ltb_nan_l (x y : qreal) : is_nan x = true -> PrimFloat.ltb x y = false.
Proof.
  intros Hx. rewrite FloatAxioms.ltb_spec, (is_nan_Prim2SF x Hx). reflexivity.
Qed.

Lemma ltb_nan_r (x y : qreal) : is_nan x = true -> PrimFloat.ltb y x = false.
Proof.
  intros Hx. rewrite FloatAxioms.ltb_spec, (is_nan_Prim2SF x Hx).
  unfold SFltb. destruct (Prim2SF y) as [s | s | | s m e]; reflexivity.
Qed.



(** ** The clamps, component by component *)

Lemma has_pixmap_Some g :
  has_pixmap g = true ->
  exists pixmap, m_pixmap g = Some pixmap /\ QSize_isEmpty (pixmap_size pixmap) = false.
Proof.
  unfold has_pixmap. destruct (m_pixmap g) as [pixmap |]; [| discriminate].
  intros H. exists pixmap. split; [reflexivity |].
  destruct (QSize_isEmpty _); [discriminate | reflexivity].
Qed.

(** With a pixmap and a positive base zoom, each component of the size is
    the scaled base size after its own two clamps. *)
Lemma calculateGeometrySizePx_clamped g controller_zoom :
  has_pixmap g = true ->
  0 < m_base_zoom g ->
  calculateGeometrySizePx g controller_zoom =
    mkQSizeF (clamp_component (scaled_width g controller_zoom)
                (width (m_draw_minimum_px g)) (width (m_draw_maximum_px g)))
             (clamp_component (scaled_height g controller_zoom)
                (height (m_draw_minimum_px g)) (height (m_draw_maximum_px g))).
Proof.
  intros Hpix Hz. apply has_pixmap_Some in Hpix as (pixmap & Hpix & Hne).
  unfold calculateGeometrySizePx, clamp_component, scaled_width, scaled_height.
  rewrite Hpix, Hne. cbn [negb].
  destruct (Z.ltb_spec 0 (m_base_zoom g)) as [_ | Hle]; [| lia].
  destruct (PrimFloat.ltb (-1) (height (m_draw_minimum_px g)));
    destruct (PrimFloat.ltb (-1) (width (m_draw_minimum_px g)));
    destruct (PrimFloat.ltb (-1) (height (m_draw_maximum_px g)));
    destruct (PrimFloat.ltb (-1) (width (m_draw_maximum_px g))); reflexivity.
Qed.

(** [std::min(y, m)] is never above [m], [std::max(x, m)] never below. *)
Lemma std_min_not_above (y m : qreal) : PrimFloat.ltb m (std_min y m) = false.
Proof.
  unfold std_min. destruct (PrimFloat.ltb m y) eqn:Hlt; [apply ltb_irrefl | exact Hlt].
Qed.

Lemma std_max_not_below (x m : qreal) : PrimFloat.ltb (std_max x m) m = false.
Proof.
  unfold std_max. destruct (PrimFloat.ltb x m) eqn:Hlt; [apply ltb_irrefl | exact Hlt].
Qed.

Lemma clamp_component_maximum x minimum maximum :
  PrimFloat.ltb (-1) maximum = true ->
  PrimFloat.ltb maximum (clamp_component x minimum maximum) = false.
Proof.
  intros Hset. unfold clamp_component. cbv zeta. rewrite Hset. apply std_min_not_above.
Qed.

Lemma clamp_component_minimum x minimum maximum :
  PrimFloat.ltb (-1) minimum = true ->
  PrimFloat.ltb (-1) maximum = false \/ PrimFloat.ltb maximum minimum = false ->
  PrimFloat.ltb (clamp_component x minimum maximum) minimum = false.
Proof.
  intros Hset Hmax. unfold clamp_component. cbv zeta. rewrite Hset.
  destruct (PrimFloat.ltb (-1) maximum) eqn:Hmset; [| apply std_max_not_below].
  unfold std_min at 1.
  destruct (PrimFloat.ltb maximum (std_max x minimum)) eqn:Hlt; [| apply std_max_not_below].
  destruct Hmax as [Hmax | Hmax]; [discriminate | exact Hmax].
Qed.


(** A component that is not a number passes both clamps as it is. *)
Lemma clamp_component_nan x minimum maximum :
  is_nan x = true -> clamp_component x minimum maximum = x.
Proof.
  intros Hx. unfold clamp_component, std_min, std_max.
  destruct (PrimFloat.ltb (-1) minimum); rewrite ?(ltb_nan_l x _ Hx);
    destruct (PrimFloat.ltb (-1) maximum); rewrite ?(ltb_nan_r x _ Hx); reflexivity.
Qed.

Lemma int_sub_in_range (a b : Z) :
  - 2 ^ 31 <= a - b < 2 ^ 31 -> int_sub a b = a - b.
Proof.
  unfold int_sub, int_wrap.
  change (2 ^ 31) with 2147483648. change (2 ^ 32) with 4294967296.
  intros Hrange. rewrite Z.mod_small by lia. lia.
Qed.

(** ** Sizing without a usable pixmap *)

Lemma calculateGeometrySizePx_unusable_pixmap g controller_zoom :
  has_pixmap g = false -> calculateGeometrySizePx g controller_zoom = mkQSizeF 1 1.
Proof.
  unfold has_pixmap, calculateGeometrySizePx. intros Hpix.
  destruct (m_pixmap g) as [pixmap |]; [| reflexivity].
  destruct (QSize_isEmpty (pixmap_size pixmap)); [reflexivity | discriminate].
Qed.

(** A GeometryPoint that holds no pixmap, or a pixmap whose width or height
    is not positive, has the size (1,1) at every zoom, whatever base zoom,
    base size and clamps it carries. *)
Theorem calculateGeometrySizePx_without_pixmap (g : GeometryPoint) :
  (m_pixmap g = None
   \/ exists pixmap, m_pixmap g = Some pixmap
                     /\ (wd (pixmap_size pixmap) <= 0 \/ ht (pixmap_size pixmap) <= 0)) ->
  forall zoom, calculateGeometrySizePx g zoom = mkQSizeF 1 1.
Proof.
  intros [Hnone | (pixmap & Hpix & Hempty)] zoom; unfold calculateGeometrySizePx.
  - rewrite Hnone. reflexivity.
  - rewrite Hpix.
    assert (Hemp : QSize_isEmpty (pixmap_size pixmap) = true).
    { unfold QSize_isEmpty. apply orb_true_iff.
      destruct Hempty as [Hw | Hh]; [left | right]; apply Z.ltb_lt; lia. }
    rewrite Hemp. reflexivity.
Qed.

Lemma calculateGeometrySizePx_without_pixmap_witness :
  m_base_zoom (Method.members (setBaseZoom 10 Fixture2.point_empty)) = 10
  /\ m_base_size_px (Method.members (setBaseZoom 10 Fixture2.point_empty)) = mkQSizeF 0 16
  /\ calculateGeometrySizePx (Method.members (setBaseZoom 10 Fixture2.point_empty)) 12
     = mkQSizeF 1 1.
Proof.
  do 2 (split; [reflexivity |]).
  apply (calculateGeometrySizePx_without_pixmap
           (Method.members (setBaseZoom 10 Fixture2.point_empty))).
  right. exists Fixture2.icon_empty. split; [reflexivity |]. left. cbn. lia.
Defined.

(** ** The clamps as bounds *)

(** With a pixmap and a positive base zoom, a component of the maximum
    draw size that is configured (greater than -1) is never exceeded by
    that component of the size, at any zoom and whatever the minimum is. *)
Theorem calculateGeometrySizePx_maximum_bound (g : GeometryPoint) (zoom : Z) :
  has_pixmap g = true ->
  0 < m_base_zoom g ->
  (PrimFloat.ltb (-1) (width (m_draw_maximum_px g)) = true ->
     PrimFloat.ltb (width (m_draw_maximum_px g)) (width (calculateGeometrySizePx g zoom)) = false)
  /\ (PrimFloat.ltb (-1) (height (m_draw_maximum_px g)) = true ->
        PrimFloat.ltb (height (m_draw_maximum_px g)) (height (calculateGeometrySizePx g zoom))
        = false).
Proof.
  intros Hpix Hz. rewrite (calculateGeometrySizePx_clamped g zoom Hpix Hz). cbn [width height].
  split; intros Hset; apply clamp_component_maximum; exact Hset.
Qed.

Lemma calculateGeometrySizePx_maximum_bound_witness :
  calculateGeometrySizePx Fixture2.point_100_clamped 15 = mkQSizeF 400 400
  /\ PrimFloat.ltb (width (m_draw_maximum_px Fixture2.point_100_clamped))
                   (width (calculateGeometrySizePx Fixture2.point_100_clamped 15)) = false.
Proof.
  split; [reflexivity |].
  exact (proj1 (calculateGeometrySizePx_maximum_bound Fixture2.point_100_clamped 15
                  eq_refl eq_refl) eq_refl).
Defined.

(** With a pixmap and a positive base zoom, a configured component of the
    minimum draw size is never undercut by that component of the size,
    provided the maximum of that component is not configured or not below
    the minimum. *)
Theorem calculateGeometrySizePx_minimum_bound (g : GeometryPoint) (zoom : Z) :
  has_pixmap g = true ->
  0 < m_base_zoom g ->
  (PrimFloat.ltb (-1) (width (m_draw_minimum_px g)) = true ->
     PrimFloat.ltb (-1) (width (m_draw_maximum_px g)) = false
     \/ PrimFloat.ltb (width (m_draw_maximum_px g)) (width (m_draw_minimum_px g)) = false ->
     PrimFloat.ltb (width (calculateGeometrySizePx g zoom)) (width (m_draw_minimum_px g)) = false)
  /\ (PrimFloat.ltb (-1) (height (m_draw_minimum_px g)) = true ->
        PrimFloat.ltb (-1) (height (m_draw_maximum_px g)) = false
        \/ PrimFloat.ltb (height (m_draw_maximum_px g)) (height (m_draw_minimum_px g)) = false ->
        PrimFloat.ltb (height (calculateGeometrySizePx g zoom)) (height (m_draw_minimum_px g))
        = false).
Proof.
  intros Hpix Hz. rewrite (calculateGeometrySizePx_clamped g zoom Hpix Hz). cbn [width height].
  split; intros Hset Hmax; apply clamp_component_minimum; assumption.
Qed.

Lemma calculateGeometrySizePx_minimum_bound_witness :
  calculateGeometrySizePx Fixture2.point_100_clamped 5 = mkQSizeF 20 20
  /\ PrimFloat.ltb (height (calculateGeometrySizePx Fixture2.point_100_clamped 5))
                   (height (m_draw_minimum_px Fixture2.point_100_clamped)) = false.
Proof.
  split; [reflexivity |].
  exact (proj2 (calculateGeometrySizePx_minimum_bound Fixture2.point_100_clamped 5
                  eq_refl eq_refl) eq_refl (or_intror eq_refl)).
Defined.



(** ** The size after a pixmap is set *)

(** After setPixmap with a non-empty pixmap the size is computed from the
    new pixmap: its own size while the base zoom is not positive, and its
    size divided by 2^(base_zoom - zoom) when the base zoom is positive and
    no clamp is configured (for zooms whose difference to the base zoom is
    an int). After setPixmap with a null pointer the size is (1,1). *)
Theorem calculateGeometrySizePx_after_setPixmap (g : GeometryPoint) (pixmap : QPixmap)
    (zoom : Z) :
  QSize_isEmpty (pixmap_size pixmap) = false ->
  let g' := Method.members (setPixmap (Some pixmap) g) in
  (m_base_zoom g <= 0 ->
     calculateGeometrySizePx g' zoom = QSizeF_of_QSize (pixmap_size pixmap))
  /\ (0 < m_base_zoom g ->
        m_draw_minimum_px g = mkQSizeF (-1) (-1) ->
        m_draw_maximum_px g = mkQSizeF (-1) (-1) ->
        - 2 ^ 31 <= m_base_zoom g - zoom < 2 ^ 31 ->
        calculateGeometrySizePx g' zoom =
          mkQSizeF (qreal_of_int (wd (pixmap_size pixmap)) / std_pow2 (m_base_zoom g - zoom))
                   (qreal_of_int (ht (pixmap_size pixmap)) / std_pow2 (m_base_zoom g - zoom)))
  /\ calculateGeometrySizePx (Method.members (setPixmap None g)) zoom = mkQSizeF 1 1.
Proof.
  intros Hne g'. split; [| split].
  - intros Hz. apply calculateGeometrySizePx_unscaled; cbn; [reflexivity | exact Hne | exact Hz].
  - intros Hz Hmin Hmax Hrange.
    rewrite (calculateGeometrySizePx_scaled g' pixmap zoom) by (cbn; assumption || reflexivity).
    subst g'. cbn. rewrite (int_sub_in_range _ _ Hrange). reflexivity.
  - apply calculateGeometrySizePx_no_pixmap. reflexivity.
Qed.

Lemma calculateGeometrySizePx_after_setPixmap_witness :
  m_base_size_px Fixture.point_32_zoom_10 = mkQSizeF 32 32
  /\ calculateGeometrySizePx
       (Method.members (setPixmap (Some Fixture.icon_100) Fixture.point_32_zoom_10)) 12
     = mkQSizeF 400 400
  /\ calculateGeometrySizePx
       (Method.members (setPixmap (Some Fixture.icon_100) Fixture.point_32)) 12
     = mkQSizeF 100 100.
Proof.
  split; [reflexivity |].
  split.
  - exact (proj1 (proj2 (calculateGeometrySizePx_after_setPixmap
                           Fixture.point_32_zoom_10 Fixture.icon_100 12 eq_refl))
                 eq_refl eq_refl eq_refl ltac:(cbn; lia)).
  - exact (proj1 (calculateGeometrySizePx_after_setPixmap
                    Fixture.point_32 Fixture.icon_100 12 eq_refl)
                 ltac:(cbn; lia)).
Defined.

(** ** The base size over the life of a point *)

(** Whatever sequence of setters a constructed GeometryPoint has gone
    through (setPixmap with a null pointer among them), whenever it holds a
    pixmap its base size is that pixmap's size. *)
Theorem Reachable_base_size (g : GeometryPoint) (pixmap : QPixmap) :
  Reachable g ->
  m_pixmap g = Some pixmap ->
  m_base_size_px g = QSizeF_of_QSize (pixmap_size pixmap).
Proof.
  intros Hreach Hpix. apply Reachable_base_size_captured in Hreach.
  unfold base_size_captured in Hreach. rewrite Hpix in Hreach. exact Hreach.
Qed.

Lemma Reachable_base_size_witness :
  m_base_size_px
    (Method.members
       (setBaseZoom 10
          (Method.members
             (setPixmap (Some Fixture.icon_100)
                (Method.members (setPixmap None Fixture.point_32))))))
  = mkQSizeF 100 100.
Proof.
  apply (Reachable_base_size _ Fixture.icon_100).
  - apply reach_setBaseZoom, reach_setPixmap, reach_setPixmap, reach_new.
  - reflexivity.
Defined.

(** ** Construction *)


(** ** Order of configuration *)

(** Calling two setters of setCoord, setPixmap, setAlignmentType,
    setBaseZoom, setDrawMinimumPx and setDrawMaximumPx in either order
    leaves the same members. *)
Theorem setters_commute (this : Address) (c : PointWorldCoord) (p : option QPixmap)
    (a : AlignmentType) (z : Z) (minimum maximum : QSizeF) (g : GeometryPoint) :
  let setters := setters_of this c p a z minimum maximum in
  forall (i j : nat) (first second : Method.t unit),
    setters !! i = Some first -> setters !! j = Some second ->
    Method.members (second (Method.members (first g)))
    = Method.members (first (Method.members (second g))).
Proof.
  cbv zeta. unfold setters_of. intros i j first second Hi Hj.
  repeat match goal with
         | H : _ !! ?n = Some _ |- _ => destruct n as [| ?]; simplify_eq/=
         end;
    run_method; try destruct p; cbn;
    repeat (destruct (PointWorldCoord_neqb _ _); cbn); reflexivity.
Qed.

Lemma setters_commute_witness :
  calculateGeometrySizePx
    (Method.members
       (setBaseZoom 10 (Method.members (setPixmap (Some Fixture.icon_100) Fixture.point_32)))) 12
  = calculateGeometrySizePx
      (Method.members
         (setPixmap (Some Fixture.icon_100) (Method.members (setBaseZoom 10 Fixture.point_32)))) 12.
Proof.
  apply (f_equal (fun g => calculateGeometrySizePx g 12)).
  exact (setters_commute Fixture.this (mkPointWorldCoord 0 0) (Some Fixture.icon_100)
           Middle 10 (mkQSizeF 1 1) (mkQSizeF 2 2) Fixture.point_32
           1%nat 3%nat _ _ eq_refl eq_refl).
Defined.

(** ** Pen and brush *)

Section StyleSetterProperties.
Variable Geometry_setPen_ptr : option QPen -> Geometry -> Geometry * list Signal.
Variable Geometry_setPen : QPen -> Geometry -> Geometry * list Signal.
Variable Geometry_setBrush_ptr : option QBrush -> Geometry -> Geometry * list Signal.
Variable Geometry_setBrush : QBrush -> Geometry -> Geometry * list Signal.

Lemma call_base_then_updatePixmap (f : Geometry -> Geometry * list Signal) (g : GeometryPoint) :
  let o := Method.bind (StyleSetters.call_base f) (fun _ => updatePixmap) g in
  Method.emitted o = (f (base g)).2 ++ [requestRedraw]
  /\ base (Method.members o) = (f (base g)).1
  /\ modifies [M_base] g (Method.members o)
  /\ (forall zoom, calculateGeometrySizePx (Method.members o) zoom
                   = calculateGeometrySizePx g zoom)
  /\ (Reachable g -> Reachable (Method.members o)).
Proof.
  cbv zeta. unfold StyleSetters.call_base, updatePixmap. run_method.
  destruct (f (base g)) as [b out]. cbn.
  split; [reflexivity |]. split; [reflexivity |]. split; [frame |].
  split; [reflexivity |]. apply reach_base.
Qed.

(** On a plain GeometryPoint (whose updatePixmap is its own), setPen and
    setBrush, in both overloads, emit what the base-class setter emits
    followed by exactly one redraw request, change the base sub-object as
    the base-class setter says and no member of the point itself, and so
    leave its size at every zoom as it was. *)
Theorem style_setters_spec (g : GeometryPoint) :
  let outcome (f : Geometry -> Geometry * list Signal)
              (o : unit * GeometryPoint * list Signal) :=
    Method.emitted o = (f (base g)).2 ++ [requestRedraw]
    /\ base (Method.members o) = (f (base g)).1
    /\ modifies [M_base] g (Method.members o)
    /\ (forall zoom, calculateGeometrySizePx (Method.members o) zoom
                     = calculateGeometrySizePx g zoom)
    /\ (Reachable g -> Reachable (Method.members o)) in
  (forall pen, outcome (Geometry_setPen_ptr pen)
                 (StyleSetters.setPen_ptr Geometry_setPen_ptr updatePixmap pen g))
  /\ (forall pen, outcome (Geometry_setPen pen)
                    (StyleSetters.setPen Geometry_setPen updatePixmap pen g))
  /\ (forall brush, outcome (Geometry_setBrush_ptr brush)
                      (StyleSetters.setBrush_ptr Geometry_setBrush_ptr updatePixmap brush g))
  /\ (forall brush, outcome (Geometry_setBrush brush)
                      (StyleSetters.setBrush Geometry_setBrush updatePixmap brush g)).
Proof.
  cbv zeta. split; [| split; [| split]]; intros style;
    exact (call_base_then_updatePixmap _ g).
Qed.

End StyleSetterProperties.

Lemma style_setters_spec_witness :
  Method.emitted (StyleSetters.setPen Fixture2.Geometry_setPen updatePixmap (mkQPen 7)
                    Fixture.point_32)
  = [requestRedraw; requestRedraw]
  /\ Reachable (Method.members
                  (StyleSetters.setPen Fixture2.Geometry_setPen updatePixmap (mkQPen 7)
                     Fixture.point_32)).
Proof.
  pose proof (proj1 (proj2 (style_setters_spec
                              (fun _ b => (b, [])) Fixture2.Geometry_setPen
                              (fun _ b => (b, [])) (fun _ b => (b, []))
                              Fixture.point_32)) (mkQPen 7))
    as (Hemitted & _ & _ & _ & Hreach).
  split; [exact Hemitted | exact (Hreach (reach_new _ _ _))].
Defined.

(** ** What draw paints *)

Section DrawProperties.
Context {projection : Projection} {alignment : GeometryAlignment} {rects : QRectFOps}.

(** [draw] on a usable pixmap. *)
Lemma draw_with_pixmap g backbuffer_rect_px controller_zoom pixmap :
  m_pixmap g = Some pixmap ->
  QSize_isEmpty (pixmap_size pixmap) = false ->
  draw g backbuffer_rect_px controller_zoom =
    if isVisible g controller_zoom
       && QRectF_intersects backbuffer_rect_px (pixmap_rect g controller_zoom)
    then drawPixmap (pixmap_rect g controller_zoom) pixmap QRectF_null
         :: draw_metadata g controller_zoom
              (QPointF_add (topRight (pixmap_rect g controller_zoom))
                 (mkQPointF (m_metadata_displayed_alignment_offset_px (base g))
                            (- m_metadata_displayed_alignment_offset_px (base g))%float))
    else [].
Proof.
  intros Hpix Hne. unfold draw, pixmap_rect, anchor_point_px. rewrite Hpix, Hne. cbn [negb].
  destruct (isVisible g controller_zoom); [| reflexivity]. cbn [andb].
  destruct (QRectF_intersects _ _); reflexivity.
Qed.

(** [draw] without a usable pixmap. *)
Lemma draw_without_pixmap g backbuffer_rect_px controller_zoom :
  has_pixmap g = false ->
  draw g backbuffer_rect_px controller_zoom =
    if isVisible g controller_zoom then draw_point g backbuffer_rect_px controller_zoom else [].
Proof.
  unfold has_pixmap, draw. intros Hpix.
  destruct (isVisible g controller_zoom); [| reflexivity].
  destruct (m_pixmap g) as [pixmap |]; [| reflexivity].
  destruct (QSize_isEmpty (pixmap_size pixmap)); [reflexivity | discriminate].
Qed.

Lemma draw_metadata_cases g controller_zoom position :
  draw_metadata g controller_zoom position =
    if label_shown g controller_zoom
    then [drawText position (toString (getMetadata g (m_metadata_displayed_key (base g))))]
    else [].
Proof. reflexivity. Qed.

(** Whatever the state, the zoom and the backbuffer, draw makes one of five
    sequences of painter calls: none; the held pixmap drawn whole (null
    source rectangle), alone or followed by one text; or the geometry's pen
    set and one point drawn, alone or followed by one text. It never draws
    both a pixmap and a point, never sets the pen for a pixmap, and never
    writes a text without having drawn. *)
Theorem draw_call_sequences (g : GeometryPoint) (backbuffer_rect_px : QRectF)
    (controller_zoom : Z) :
  let calls := draw g backbuffer_rect_px controller_zoom in
  calls = []
  \/ (exists target pixmap,
        m_pixmap g = Some pixmap
        /\ (calls = [drawPixmap target pixmap QRectF_null]
            \/ exists position text,
                 calls = [drawPixmap target pixmap QRectF_null; drawText position text]))
  \/ (exists point,
        calls = [setPen (getPen g); drawPoint point]
        \/ exists position text,
             calls = [setPen (getPen g); drawPoint point; drawText position text]).
Proof.
  cbv zeta. destruct (has_pixmap g) eqn:Hpix.
  - apply has_pixmap_Some in Hpix as (pixmap & Hpix & Hne).
    rewrite (draw_with_pixmap g _ _ pixmap Hpix Hne), draw_metadata_cases.
    destruct (_ && _); [| left; reflexivity].
    right. left. eexists _, pixmap. split; [exact Hpix |].
    destruct (label_shown g controller_zoom); [right; eexists _, _ | left]; reflexivity.
  - rewrite (draw_without_pixmap g _ _ Hpix). unfold draw_point.
    destruct (isVisible g controller_zoom); [| left; reflexivity].
    destruct (QRectF_contains _ _); [| left; reflexivity].
    right. right. eexists. rewrite draw_metadata_cases.
    destruct (label_shown g controller_zoom); [right; eexists _, _ | left]; reflexivity.
Qed.

(** draw paints nothing exactly when the geometry is not visible at the
    zoom, or it has a usable pixmap whose rectangle does not intersect the
    backbuffer rectangle, or it has none and its anchor pixel is not
    contained in the backbuffer rectangle. *)
Theorem draw_nothing_iff (g : GeometryPoint) (backbuffer_rect_px : QRectF)
    (controller_zoom : Z) :
  draw g backbuffer_rect_px controller_zoom = []
  <-> isVisible g controller_zoom = false
      \/ (has_pixmap g = true
          /\ QRectF_intersects backbuffer_rect_px (pixmap_rect g controller_zoom) = false)
      \/ (has_pixmap g = false
          /\ QRectF_contains backbuffer_rect_px
               (RawPoint.ofWorldPx (anchor_point_px g controller_zoom)) = false).
Proof.
  destruct (has_pixmap g) eqn:Hpix.
  - apply has_pixmap_Some in Hpix as (pixmap & Hpix & Hne).
    rewrite (draw_with_pixmap g _ _ pixmap Hpix Hne).
    destruct (isVisible g controller_zoom); cbn [andb]; [| intuition congruence].
    destruct (QRectF_intersects _ _); intuition congruence.
  - rewrite (draw_without_pixmap g _ _ Hpix). unfold draw_point, anchor_point_px.
    destruct (isVisible g controller_zoom); [| intuition congruence].
    destruct (QRectF_contains _ _); intuition congruence.
Qed.

(** What draw paints is nothing, or calls other than drawText followed by
    the label. *)
Lemma draw_decompose g backbuffer_rect_px controller_zoom :
  draw g backbuffer_rect_px controller_zoom = []
  \/ exists calls position,
       calls <> []
       /\ (forall p t, drawText p t ∉ calls)
       /\ draw g backbuffer_rect_px controller_zoom
          = calls ++ draw_metadata g controller_zoom position.
Proof.
  destruct (has_pixmap g) eqn:Hpix.
  - apply has_pixmap_Some in Hpix as (pixmap & Hpix & Hne).
    rewrite (draw_with_pixmap g _ _ pixmap Hpix Hne).
    destruct (_ && _); [| left; reflexivity].
    right. eexists [_], _. split; [discriminate |]. split; [| reflexivity].
    intros p t. rewrite !elem_of_cons, elem_of_nil. intuition discriminate.
  - rewrite (draw_without_pixmap g _ _ Hpix). unfold draw_point.
    destruct (isVisible g controller_zoom); [| left; reflexivity].
    destruct (QRectF_contains _ _); [| left; reflexivity].
    right. eexists [_; _], _. split; [discriminate |]. split; [| reflexivity].
    intros p t. rewrite !elem_of_cons, elem_of_nil. intuition discriminate.
Qed.

(** draw writes a text exactly when it paints something, the zoom has
    reached the display threshold and the displayed metadata key has a
    non-null value; the text is then that value's string. *)
Theorem draw_label_iff (g : GeometryPoint) (backbuffer_rect_px : QRectF)
    (controller_zoom : Z) :
  let calls := draw g backbuffer_rect_px controller_zoom in
  let value := getMetadata g (m_metadata_displayed_key (base g)) in
  ((exists position text, drawText position text ∈ calls)
   <-> calls <> []
       /\ m_metadata_displayed_zoom_minimum (base g) <= controller_zoom
       /\ isNull value = false)
  /\ (forall position text, drawText position text ∈ calls -> text = toString value).
Proof.
  cbv zeta.
  assert (Hshown : label_shown g controller_zoom = true
                   <-> m_metadata_displayed_zoom_minimum (base g) <= controller_zoom
                       /\ isNull (getMetadata g (m_metadata_displayed_key (base g))) = false).
  { unfold label_shown. rewrite andb_true_iff, Z.leb_le, negb_true_iff. reflexivity. }
  destruct (draw_decompose g backbuffer_rect_px controller_zoom)
    as [Hnone | (calls & position & Hcalls & Hnotext & Hdraw)].
  - rewrite Hnone. split.
    + split; [intros (p & t & Hin); apply elem_of_nil in Hin; contradiction |].
      intros (Hne & _). congruence.
    + intros p t Hin. apply elem_of_nil in Hin. contradiction.
  - rewrite Hdraw, draw_metadata_cases.
    destruct (label_shown g controller_zoom) eqn:Hlabel.
    + split.
      * split.
        -- intros _. split; [destruct calls; [congruence | discriminate] |].
           apply Hshown. reflexivity.
        -- intros _. eexists _, _. apply elem_of_app. right. apply list_elem_of_here.
      * intros p t Hin. apply elem_of_app in Hin as [Hin | Hin].
        -- apply Hnotext in Hin. contradiction.
        -- apply elem_of_cons in Hin as [Heq | Hin]; [congruence |].
           apply elem_of_nil in Hin. contradiction.
    + rewrite app_nil_r. split.
      * split; [intros (p & t & Hin); apply Hnotext in Hin; contradiction |].
        intros (_ & Hcond). apply Hshown in Hcond. discriminate.
      * intros p t Hin. apply Hnotext in Hin. contradiction.
Qed.

(** Where a drawPixmap call of draw comes from. *)
Lemma drawPixmap_in_draw g backbuffer_rect_px controller_zoom target pixmap source :
  drawPixmap target pixmap source ∈ draw g backbuffer_rect_px controller_zoom ->
  isVisible g controller_zoom = true
  /\ m_pixmap g = Some pixmap
  /\ QSize_isEmpty (pixmap_size pixmap) = false
  /\ source = QRectF_null
  /\ target = pixmap_rect g controller_zoom
  /\ QRectF_intersects backbuffer_rect_px (pixmap_rect g controller_zoom) = true.
Proof.
  intros Hin. destruct (has_pixmap g) eqn:Hpix.
  - apply has_pixmap_Some in Hpix as (held & Hpix & Hne).
    rewrite (draw_with_pixmap g _ _ held Hpix Hne), draw_metadata_cases in Hin.
    destruct (isVisible g controller_zoom); cbn [andb] in Hin;
      [| apply elem_of_nil in Hin; contradiction].
    destruct (QRectF_intersects _ _) eqn:Hcut; [| apply elem_of_nil in Hin; contradiction].
    assert (Hcall : drawPixmap target pixmap source
                    = drawPixmap (pixmap_rect g controller_zoom) held QRectF_null).
    { apply elem_of_cons in Hin as [Heq | Hin]; [exact Heq |].
      destruct (label_shown g controller_zoom);
        [apply elem_of_cons in Hin as [Heq | Hin]; [discriminate |] |];
        apply elem_of_nil in Hin; contradiction. }
    injection Hcall as -> -> ->. repeat split; assumption.
  - rewrite (draw_without_pixmap g _ _ Hpix) in Hin. unfold draw_point in Hin.
    rewrite draw_metadata_cases in Hin.
    destruct (isVisible g controller_zoom); [| apply elem_of_nil in Hin; contradiction].
    destruct (QRectF_contains _ _); [| apply elem_of_nil in Hin; contradiction].
    destruct (label_shown g controller_zoom);
      rewrite !elem_of_cons, elem_of_nil in Hin; intuition discriminate.
Qed.

(** A pixmap that draw paints is the held, non-empty one, drawn whole
    (null source rectangle) into the rectangle whose top-left corner is the
    aligned anchor pixel and whose extent is the size computed for the
    zoom; the geometry is then visible and that rectangle intersects the
    backbuffer rectangle. *)
Theorem draw_pixmap_target (g : GeometryPoint) (backbuffer_rect_px : QRectF)
    (controller_zoom : Z) (target : QRectF) (pixmap : QPixmap) (source : QRectF) :
  drawPixmap target pixmap source ∈ draw g backbuffer_rect_px controller_zoom ->
  isVisible g controller_zoom = true
  /\ m_pixmap g = Some pixmap
  /\ QSize_isEmpty (pixmap_size pixmap) = false
  /\ source = QRectF_null
  /\ topLeft target
     = RawPoint.ofWorldPx
         (calculateTopLeftPoint (toPointWorldPx (coord g) controller_zoom) (m_alignment_type g)
            (calculateGeometrySizePx g controller_zoom))
  /\ rect_w target = width (calculateGeometrySizePx g controller_zoom)
  /\ rect_h target = height (calculateGeometrySizePx g controller_zoom)
  /\ QRectF_intersects backbuffer_rect_px target = true.
Proof.
  intros Hin.
  destruct (drawPixmap_in_draw _ _ _ _ _ _ Hin) as (Hvis & Hpix & Hne & Hsrc & -> & Hcut).
  split; [exact Hvis |]. split; [exact Hpix |]. split; [exact Hne |]. split; [exact Hsrc |].
  unfold pixmap_rect, anchor_point_px, coord, topLeft in *. cbn.
  split; [reflexivity |]. split; [reflexivity |]. split; [reflexivity | exact Hcut].
Qed.

(** A pixmap without extent is treated like a null pointer: draw, the size
    and the bounding box are those of the same point holding no pixmap. *)
Theorem empty_pixmap_as_none (g : GeometryPoint) (controller_zoom : Z) :
  has_pixmap g = false ->
  (forall backbuffer_rect_px,
     draw g backbuffer_rect_px controller_zoom
     = draw (set_pixmap None g) backbuffer_rect_px controller_zoom)
  /\ calculateGeometrySizePx g controller_zoom
     = calculateGeometrySizePx (set_pixmap None g) controller_zoom
  /\ boundingBox g controller_zoom = boundingBox (set_pixmap None g) controller_zoom.
Proof.
  intros Hpix.
  assert (Hsize : calculateGeometrySizePx g controller_zoom
                  = calculateGeometrySizePx (set_pixmap None g) controller_zoom).
  { unfold has_pixmap in Hpix. unfold calculateGeometrySizePx. cbn.
    destruct (m_pixmap g) as [pixmap |]; [| reflexivity].
    destruct (QSize_isEmpty (pixmap_size pixmap)); [reflexivity | discriminate]. }
  split; [| split].
  - intros backbuffer_rect_px.
    rewrite (draw_without_pixmap g _ _ Hpix), (draw_without_pixmap (set_pixmap None g));
      reflexivity.
  - exact Hsize.
  - unfold boundingBox. rewrite Hsize. reflexivity.
Qed.

(** The bounding box is the world image of the rectangle draw computes for
    the pixmap: its corners are the projection's world coordinates of that
    rectangle's top-left and bottom-right pixels. In particular this holds
    for the target of every drawPixmap call that draw makes. *)
Theorem boundingBox_of_pixmap_rect (g : GeometryPoint) (controller_zoom : Z) :
  let world_corners (r : QRectF) :=
    QRectF_of_corners
      (RawPoint.ofWorldCoord (toPointWorldCoord (PointWorldPx_of_raw (topLeft r)) controller_zoom))
      (RawPoint.ofWorldCoord
         (toPointWorldCoord (PointWorldPx_of_raw (bottomRight r)) controller_zoom)) in
  boundingBox g controller_zoom = world_corners (pixmap_rect g controller_zoom)
  /\ (forall backbuffer_rect_px target pixmap source,
        drawPixmap target pixmap source ∈ draw g backbuffer_rect_px controller_zoom ->
        boundingBox g controller_zoom = world_corners target).
Proof.
  cbv zeta.
  assert (Hbox : boundingBox g controller_zoom
                 = QRectF_of_corners
                     (RawPoint.ofWorldCoord
                        (toPointWorldCoord
                           (PointWorldPx_of_raw (topLeft (pixmap_rect g controller_zoom)))
                           controller_zoom))
                     (RawPoint.ofWorldCoord
                        (toPointWorldCoord
                           (PointWorldPx_of_raw (bottomRight (pixmap_rect g controller_zoom)))
                           controller_zoom))).
  { unfold boundingBox, pixmap_rect, anchor_point_px.
    destruct (calculateTopLeftPoint _ _ _) as [x y]. reflexivity. }
  split; [exact Hbox |].
  intros backbuffer_rect_px target pixmap source Hin.
  destruct (drawPixmap_in_draw _ _ _ _ _ _ Hin) as (_ & _ & _ & _ & -> & _).
  exact Hbox.
Qed.

End DrawProperties.

(** ** Examples for the drawing properties *)

Lemma draw_nothing_iff_witness :
  isVisible Fixture.point_32 3 = true
  /\ has_pixmap Fixture.point_32 = true
  /\ Fixture2.draw Fixture.point_32 Fixture2.backbuffer_far 3 = []
  /\ Fixture2.draw Fixture.point_32 Fixture.backbuffer 3 <> [].
Proof.
  do 2 (split; [reflexivity |]).
  split.
  - apply (proj2 (draw_nothing_iff (projection := Fixture.projection)
                    (alignment := Fixture.alignment) (rects := Fixture.rects)
                    Fixture.point_32 Fixture2.backbuffer_far 3)).
    right. left. split; reflexivity.
  - intros Hnone.
    apply (proj1 (draw_nothing_iff (projection := Fixture.projection)
                    (alignment := Fixture.alignment) (rects := Fixture.rects)
                    Fixture.point_32 Fixture.backbuffer 3)) in Hnone.
    destruct Hnone as [Hvis | [[_ Hcut] | [Hpix _]]]; discriminate.
Defined.

Lemma draw_label_iff_witness :
  Fixture2.draw Fixture.point_32 Fixture2.backbuffer_zoom_10 10
  = [drawPixmap (mkQRectF 8176 51184 32 32) Fixture.icon_32 QRectF_null;
     drawText (mkQPointF 8213 51179) "harbour"]
  /\ (exists position text,
        drawText position text ∈ Fixture2.draw Fixture.point_32 Fixture2.backbuffer_zoom_10 10).
Proof.
  split; [reflexivity |].
  apply (proj2 (proj1 (draw_label_iff (projection := Fixture.projection)
                         (alignment := Fixture.alignment) (rects := Fixture.rects)
                         Fixture.point_32 Fixture2.backbuffer_zoom_10 10))).
  split; [discriminate |]. split; [cbn; lia | reflexivity].
Defined.

Lemma draw_pixmap_target_witness :
  drawPixmap (mkQRectF 48 384 32 32) Fixture.icon_32 QRectF_null
    ∈ Fixture2.draw Fixture.point_32 Fixture.backbuffer 3
  /\ m_pixmap Fixture.point_32 = Some Fixture.icon_32
  /\ rect_w (mkQRectF 48 384 32 32) = width (calculateGeometrySizePx Fixture.point_32 3).
Proof.
  assert (Hin : drawPixmap (mkQRectF 48 384 32 32) Fixture.icon_32 QRectF_null
                  ∈ Fixture2.draw Fixture.point_32 Fixture.backbuffer 3)
    by exact (list_elem_of_here _ _).
  split; [exact Hin |].
  destruct (draw_pixmap_target (projection := Fixture.projection)
              (alignment := Fixture.alignment) (rects := Fixture.rects)
              Fixture.point_32 Fixture.backbuffer 3 _ _ _ Hin)
    as (_ & Hpix & _ & _ & _ & Hw & _).
  split; [exact Hpix | exact Hw].
Defined.

Lemma empty_pixmap_as_none_witness :
  has_pixmap Fixture2.point_empty = false
  /\ m_pixmap Fixture2.point_empty = Some Fixture2.icon_empty
  /\ Fixture2.draw Fixture2.point_empty Fixture.backbuffer 3
     = Fixture2.draw (set_pixmap None Fixture2.point_empty) Fixture.backbuffer 3.
Proof.
  do 2 (split; [reflexivity |]).
  exact (proj1 (empty_pixmap_as_none (projection := Fixture.projection)
                  (alignment := Fixture.alignment) (rects := Fixture.rects)
                  Fixture2.point_empty 3 eq_refl) Fixture.backbuffer).
Defined.

Lemma boundingBox_of_pixmap_rect_witness :
  drawPixmap (mkQRectF 48 384 32 32) Fixture.icon_32 QRectF_null
    ∈ Fixture2.draw Fixture.point_32 Fixture.backbuffer 3
  /\ boundingBox (projection := Fixture.projection) (alignment := Fixture.alignment)
       Fixture.point_32 3
     = mkQRectF 6 48 4 4.
Proof.
  assert (Hin : drawPixmap (mkQRectF 48 384 32 32) Fixture.icon_32 QRectF_null
                  ∈ Fixture2.draw Fixture.point_32 Fixture.backbuffer 3)
    by exact (list_elem_of_here _ _).
  split; [exact Hin |].
  exact (proj2 (boundingBox_of_pixmap_rect (projection := Fixture.projection)
                  (alignment := Fixture.alignment) (rects := Fixture.rects)
                  Fixture.point_32 3) Fixture.backbuffer _ _ _ Hin).
Defined.

(** ** Clamp components at or below the sentinel *)

(** With a pixmap and a positive base zoom, a component whose minimum and
    maximum are both not greater than -1 (the sentinel -1, anything below
    it, or not a number) is not clamped: it is the base size divided by
    2^(base_zoom - zoom), whatever the clamps of the other component are. *)
Theorem calculateGeometrySizePx_clamp_ignored (g : GeometryPoint) (zoom : Z) :
  has_pixmap g = true ->
  0 < m_base_zoom g ->
  (PrimFloat.ltb (-1) (width (m_draw_minimum_px g)) = false ->
     PrimFloat.ltb (-1) (width (m_draw_maximum_px g)) = false ->
     width (calculateGeometrySizePx g zoom) = scaled_width g zoom)
  /\ (PrimFloat.ltb (-1) (height (m_draw_minimum_px g)) = false ->
        PrimFloat.ltb (-1) (height (m_draw_maximum_px g)) = false ->
        height (calculateGeometrySizePx g zoom) = scaled_height g zoom).
Proof.
  intros Hpix Hz. rewrite (calculateGeometrySizePx_clamped g zoom Hpix Hz). cbn [width height].
  unfold clamp_component. split; intros Hmin Hmax; rewrite Hmin, Hmax; reflexivity.
Qed.

Lemma calculateGeometrySizePx_clamp_ignored_witness :
  m_draw_minimum_px
    (Method.members (setDrawMinimumPx (mkQSizeF (-3) 20) Fixture.point_100_zoom_10))
  = mkQSizeF (-3) 20
  /\ calculateGeometrySizePx
       (Method.members (setDrawMinimumPx (mkQSizeF (-3) 20) Fixture.point_100_zoom_10)) 5
     = mkQSizeF 3.125 20
  /\ width (calculateGeometrySizePx
              (Method.members (setDrawMinimumPx (mkQSizeF (-3) 20) Fixture.point_100_zoom_10)) 5)
     = 3.125%float.
Proof.
  do 2 (split; [reflexivity |]).
  exact (proj1 (calculateGeometrySizePx_clamp_ignored
                  (Method.members (setDrawMinimumPx (mkQSizeF (-3) 20) Fixture.point_100_zoom_10))
                  5 eq_refl eq_refl) eq_refl eq_refl).
Defined.

(** ** The bounding box of a bare point *)

Section BareBoundingBox.
Context {projection : Projection} {alignment : GeometryAlignment}.

(** A point without a usable pixmap (none, or one without extent) has the
    bounding box of one pixel: its corners are the world coordinates of the
    anchor pixel aligned for the size (1,1) and of the pixel one to the
    right and one below it. *)
Theorem boundingBox_without_pixmap (g : GeometryPoint) (controller_zoom : Z) :
  has_pixmap g = false ->
  let top_left_px :=
    calculateTopLeftPoint (toPointWorldPx (coord g) controller_zoom) (m_alignment_type g)
      (mkQSizeF 1 1) in
  boundingBox g controller_zoom =
    QRectF_of_corners
      (RawPoint.ofWorldCoord (toPointWorldCoord top_left_px controller_zoom))
      (RawPoint.ofWorldCoord
         (toPointWorldCoord (PointWorldPx_add top_left_px (mkPointPx 1 1)) controller_zoom)).
Proof.
  intros Hpix. cbv zeta. unfold boundingBox, coord.
  rewrite (calculateGeometrySizePx_unusable_pixmap g controller_zoom Hpix). reflexivity.
Qed.

End BareBoundingBox.

Lemma boundingBox_without_pixmap_witness :
  has_pixmap Fixture2.point_empty = false
  /\ boundingBox (projection := Fixture.projection) (alignment := Fixture.alignment)
       Fixture2.point_empty 3
     = mkQRectF 7.9375 49.9375 0.125 0.125.
Proof.
  split; [reflexivity |].
  exact (boundingBox_without_pixmap (projection := Fixture.projection)
           (alignment := Fixture.alignment) Fixture2.point_empty 3 eq_refl).
Defined.
